(** * otsql: tracing facades over [database/sql/driver]

    A shallow embedding of [sql.go].  The package wraps a native SQL driver
    in six facades (driver, connection, transaction, statement, result, row
    cursor).  Every facade method forwards to the wrapped native object and,
    for the traced ones, brackets the call with a span.

    Go side                         Rocq side
    ------------------------------  ------------------------------------------
    [error] values                  [error]
    [(T, error)] returns            [res T]
    [driver.Value], [NamedValue]    [Value], [NamedValue]
    [context.Context]               [Context] (nil, a caller's context, or a
                                    context returned by [tracer.Start])
    native driver interfaces        records of functions over the data store
                                    [DB]; an optional interface (tested in Go
                                    with a type assertion) is an [option] field
    tracer / span calls, native     entries appended to one chronological
    driver calls                    [log] in the [World]
    [defer func() {...}()]          [deferred], run after the body with the
                                    value of the named result [err]           *)

From Stdlib Require Import ZArith String Lia.
From stdpp Require Import base list strings gmap.

Open Scope string_scope.
Open Scope list_scope.

(** ** Errors, values, contexts *)

(** The error values that occur in the package, and an opaque family for
    whatever the native driver returns. *)
Inductive error : Type :=
| ErrSkip                       (* driver.ErrSkip *)
| ErrNew (msg : string)         (* errors.New(msg) *)
| ErrCanceled                   (* context.Canceled *)
| ErrDeadlineExceeded           (* context.DeadlineExceeded *)
| ErrEOF                        (* io.EOF *)
| ErrDriver (msg : string).     (* an error of the native driver *)

(** A Go result pair [(T, error)] as the facades read it: [err != nil]
    is tested first and the value is only used when [err == nil]. *)
Inductive res (A : Type) : Type :=
| Ok (a : A)
| Err (e : error).
Arguments Ok {A} a.
Arguments Err {A} e.

Definition res_err {A} (r : res A) : option error :=
  match r with Ok _ => None | Err e => Some e end.

(** [driver.Value] *)
Inductive Value : Type :=
| VNil
| VInt (z : Z)
| VBool (b : bool)
| VString (s : string).

(** [driver.NamedValue] *)
Record NamedValue : Type := {
  nvName : string;
  nvOrdinal : Z;
  nvValue : Value
}.

(** [driver.TxOptions] *)
Record TxOptions : Type := {
  Isolation : Z;
  ReadOnly : bool
}.

Definition SpanId := nat.
Definition Tracer := string.

(** [context.Context].  [ctxNil] is the nil interface, the zero value of a
    facade's [ctx] field.  [ctxUser id err] is a context made by the caller;
    [err] is what its [Err()] reports while the operation runs ([None]: the
    [Done()] channel is open).  [ctxWithSpan parent span] is the context that
    [tracer.Start(parent, _)] returns: the parent with the new span attached. *)
Inductive Context : Type :=
| ctxNil
| ctxUser (id : nat) (err : option error)
| ctxWithSpan (parent : Context) (span : SpanId).

(** [ctx.Err()]; a context with a span attached inherits cancellation from
    its parent.  The tracer is outside the package: it is modelled as one
    that accepts a nil parent and treats it as never cancelled. *)
Fixpoint ctx_Err (ctx : Context) : option error :=
  match ctx with
  | ctxNil => None
  | ctxUser _ err => err
  | ctxWithSpan parent _ => ctx_Err parent
  end.

(** The value given to a span attribute: a string, or the rendering by
    [pretty.Sprint] of an argument list, kept as the list it renders. *)
Inductive AttrValue : Type :=
| AttrString (s : string)
| AttrPrettyNamed (args : list NamedValue)
| AttrPrettyValues (args : list Value).

(** ** The log: tracer calls and native driver calls *)

(** One constructor per method of the native driver interfaces, with the
    arguments the native object receives. *)
Inductive NativeCall : Type :=
| NOpen (name : string)
| NPrepare (query : string)
| NConnClose
| NBegin
| NBeginTx (ctx : Context) (opts : TxOptions)
| NPrepareContext (ctx : Context) (query : string)
| NConnExec (query : string) (args : list Value)
| NConnExecContext (ctx : Context) (query : string) (args : list NamedValue)
| NPing (ctx : Context)
| NConnQuery (query : string) (args : list Value)
| NConnQueryContext (ctx : Context) (query : string) (args : list NamedValue)
| NCommit
| NRollback
| NStmtClose
| NNumInput
| NStmtExec (args : list Value)
| NStmtQuery (args : list Value)
| NStmtExecContext (ctx : Context) (args : list NamedValue)
| NStmtQueryContext (ctx : Context) (args : list NamedValue)
| NLastInsertId
| NRowsAffected
| NColumns
| NRowsClose
| NNext (dest : list Value).

Inductive Event : Type :=
| Start (tracer : Tracer) (parent : Context) (name : string) (span : SpanId)
| SetAttr (span : SpanId) (key : string) (val : AttrValue)
| RecordError (span : SpanId) (ctx : Context) (err : error)
| End (span : SpanId)
| Native (call : NativeCall) (err : option error).

Definition is_Start (e : Event) : bool :=
  match e with Start _ _ _ _ => true | _ => false end.
Definition is_End (e : Event) : bool :=
  match e with End _ => true | _ => false end.

(** What a spy driver records: the native calls, in order. *)
Fixpoint native_calls (l : list Event) : list (NativeCall * option error) :=
  match l with
  | [] => []
  | Native c e :: l' => (c, e) :: native_calls l'
  | _ :: l' => native_calls l'
  end.

(** What a spy tracer records: everything else, in order. *)
Fixpoint trace_events (l : list Event) : list Event :=
  match l with
  | [] => []
  | Native _ _ :: l' => trace_events l'
  | e :: l' => e :: trace_events l'
  end.

Definition count_starts (l : list Event) : nat :=
  length (List.filter is_Start l).
Definition count_ends (l : list Event) : nat :=
  length (List.filter is_End l).

(** The spans started in [l], with their names. *)
Fixpoint started (l : list Event) : list (SpanId * string) :=
  match l with
  | [] => []
  | Start _ _ name span :: l' => (span, name) :: started l'
  | _ :: l' => started l'
  end.

(** The spans ended in [l], in the order they were ended. *)
Fixpoint ended (l : list Event) : list SpanId :=
  match l with
  | [] => []
  | End span :: l' => span :: ended l'
  | _ :: l' => ended l'
  end.

(** The string literals the package passes to [tracer.Start]. *)
Definition span_names : list string :=
  ["sql-tx-begin"; "sql-prepare"; "sql-conn-exec"; "sql-ping";
   "sql-conn-query"; "sql-tx-commit"; "sql-tx-rollback"; "sql-stmt-close";
   "sql-stmt-exec"; "sql-stmt-query"; "sql-res-lastInsertId";
   "sql-res-rowsAffected"; "sql-rows-next"].

(** The spans started from the nil context in [l], by name: the calls
    [tracer.Start(nil, name)]. *)
Fixpoint nil_starts (l : list Event) : list string :=
  match l with
  | [] => []
  | Start _ ctxNil name _ :: l' => name :: nil_starts l'
  | _ :: l' => nil_starts l'
  end.

(** [namedValueToValue]: the destination slice is allocated at full length
    and filled by index; the first named parameter aborts the loop. *)
Definition errNamedParameters : error :=
  ErrNew "sql: driver does not support the use of Named Parameters".

(* namedValueToValue, sql.go:454-463 *)
Fixpoint namedValueToValue_loop
    (n : nat) (named : list NamedValue) (dargs : list Value)
  : res (list Value) :=
  match named with
  | [] => Ok dargs
  | param :: rest =>
      if (0 <? String.length (nvName param))%nat
      then Err errNamedParameters
      else namedValueToValue_loop (S n) rest (<[n := nvValue param]> dargs)
  end.

Definition namedValueToValue (named : list NamedValue) : res (list Value) :=
  namedValueToValue_loop 0 named (replicate (length named) VNil).

(** ** The native driver and the world it runs in *)

Section Facades.

Context {DB : Type}.

(** The native interfaces of [database/sql/driver].  A method is a function
    on the data store; the optional interfaces carry the name Go gives them. *)
Record Result : Type := {
  LastInsertId : DB -> (Z * option error) * DB;
  RowsAffected : DB -> (Z * option error) * DB
}.

Record Rows : Type := {
  Columns : DB -> list string * DB;
  Rows_Close : DB -> option error * DB;
  (* [Next] fills [dest] in place: the new contents are returned *)
  Next : list Value -> DB -> (list Value * option error) * DB
}.

Record Stmt : Type := {
  Stmt_Close : DB -> option error * DB;
  NumInput : DB -> Z * DB;
  Stmt_Exec : list Value -> DB -> res Result * DB;
  Stmt_Query : list Value -> DB -> res Rows * DB;
  StmtExecContext :
    option (Context -> list NamedValue -> DB -> res Result * DB);
  StmtQueryContext :
    option (Context -> list NamedValue -> DB -> res Rows * DB)
}.

Record Tx : Type := {
  Commit : DB -> option error * DB;
  Rollback : DB -> option error * DB
}.

Record Conn : Type := {
  Prepare : string -> DB -> res Stmt * DB;
  Conn_Close : DB -> option error * DB;
  Begin : DB -> res Tx * DB;
  ConnBeginTx : option (Context -> TxOptions -> DB -> res Tx * DB);
  ConnPrepareContext : option (Context -> string -> DB -> res Stmt * DB);
  Execer : option (string -> list Value -> DB -> res Result * DB);
  ExecerContext :
    option (Context -> string -> list NamedValue -> DB -> res Result * DB);
  Pinger : option (Context -> DB -> option error * DB);
  Queryer : option (string -> list Value -> DB -> res Rows * DB);
  QueryerContext :
    option (Context -> string -> list NamedValue -> DB -> res Rows * DB)
}.

Record Driver : Type := {
  Open : string -> DB -> res Conn * DB
}.

(** The data store, the log of tracer and native calls, and the tracer's
    supply of span identifiers. *)
Record World : Type := {
  db : DB;
  log : list Event;
  next_span : SpanId
}.

Definition M (A : Type) : Type := World -> A * World.

Definition ret {A} (a : A) : M A := fun w => (a, w).

Definition bind {A B} (m : M A) (k : A -> M B) : M B :=
  fun w => let (a, w') := m w in k a w'.

Notation "x <- m ;; k" := (bind m (fun x => k))
  (at level 100, m at next level, right associativity).
Notation "'both' a b <- m ;; k" := (bind m (fun p => let (a, b) := p in k))
  (at level 100, a name, b name, m at next level, right associativity).
Notation "m ;;; k" := (bind m (fun _ => k))
  (at level 100, right associativity).

Definition emit (e : Event) : M unit :=
  fun w => (tt, {| db := db w; log := log w ++ [e];
                   next_span := next_span w |}).

(** A call into the native driver: it runs on the store and is recorded
    together with the error it returned. *)
Definition native {A} (call : NativeCall) (err_of : A -> option error)
    (f : DB -> A * DB) : M A :=
  fun w =>
    let (a, d) := f (db w) in
    (a, {| db := d; log := log w ++ [Native call (err_of a)];
           next_span := next_span w |}).

Definition no_err {A} (_ : A) : option error := None.

(** *** The tracer *)

(** [tracer.Start(ctx, name)] returns the context carrying the new span,
    and the span.  The tracer is an interface the caller supplies.  Here it
    is a spy: it records the call with the context it was given and hands
    out span identifiers in sequence.  The entry [Start t ctxNil name _]
    records that the package called [tracer.Start(nil, name)]; what happens
    next is the tracer's business, and OpenTelemetry's own tracers panic on
    a nil context where the spy goes on.  A statement about what follows
    such an entry is a statement about the spy. *)
Definition tracer_Start (t : Tracer) (ctx : Context) (name : string)
  : M (Context * SpanId) :=
  fun w =>
    let span := next_span w in
    ((ctxWithSpan ctx span, span),
     {| db := db w; log := log w ++ [Start t ctx name span];
        next_span := S span |}).

Definition span_SetAttribute (span : SpanId) (k : string) (v : AttrValue)
  : M unit := emit (SetAttr span k v).

Definition span_RecordError (span : SpanId) (ctx : Context) (err : error)
  : M unit := emit (RecordError span ctx err).

Definition span_End (span : SpanId) : M unit := emit (End span).

Definition queryLbl : string := "query".
Definition argsLbl : string := "args".

(** The deferred closure shared by the traced methods:
    [defer func() { if err != nil { span.RecordError(ctx, err) }; span.End() }()].
    It runs when [body] has returned, on the named result [err]. *)
Definition deferred {A} (err_of : A -> option error)
    (ctx : Context) (span : SpanId) (body : M A) : M A :=
  a <- body ;;
  match err_of a with
  | Some err => span_RecordError span ctx err
  | None => ret tt
  end ;;;
  span_End span ;;;
  ret a.

(** ** The facades *)

Record wrappedDriver : Type := {
  wd_tracer : Tracer;
  wd_parent : Driver
}.

Record wrappedConn : Type := {
  wc_tracer : Tracer;
  wc_parent : Conn
}.

Record wrappedTx : Type := {
  wt_tracer : Tracer;
  wt_ctx : Context;
  wt_parent : Tx
}.

Record wrappedStmt : Type := {
  ws_tracer : Tracer;
  ws_ctx : Context;
  ws_query : string;
  ws_parent : Stmt
}.

Record wrappedResult : Type := {
  wr_tracer : Tracer;
  wr_ctx : Context;
  wr_parent : Result
}.

Record wrappedRows : Type := {
  wrows_tracer : Tracer;
  wrows_ctx : Context;
  wrows_parent : Rows
}.

(** The two values [WrapDriver] computes before it registers: the name
    under which the facade is registered, and the facade.  The registration
    follows in [WrapDriver_Register]. *)
(* WrapDriver, sql.go:49-54 *)
Definition WrapDriver (nameSuffix : string) (driver : Driver)
    (tracer : Tracer) : string * wrappedDriver :=
  (("traced-" ++ nameSuffix)%string,
   {| wd_parent := driver; wd_tracer := tracer |}).

(** Modelled from the spec: the process-wide registry of named drivers
    kept by [database/sql], which is not part of this repository.  A name is
    registered once; [sql.Register] on a name that is taken fails (in Go it
    panics), which is [None] here, and leaves the registry as it was. *)
Definition sql_Register (name : string) (d : wrappedDriver)
    (drivers : gmap string wrappedDriver)
  : option (gmap string wrappedDriver) :=
  match drivers !! name with
  | Some _ => None
  | None => Some (<[name := d]> drivers)
  end.

(* WrapDriver, sql.go:49-54, with the registration *)
Definition WrapDriver_Register (nameSuffix : string) (driver : Driver)
    (tracer : Tracer) (drivers : gmap string wrappedDriver)
  : option (string * gmap string wrappedDriver) :=
  let (name, d) := WrapDriver nameSuffix driver tracer in
  match sql_Register name d drivers with
  | Some drivers' => Some (name, drivers')
  | None => None
  end.

(** *** Driver facade *)

(* wrappedDriver.Open, sql.go:56-63 *)
Definition wrappedDriver_Open (d : wrappedDriver) (name : string)
  : M (res wrappedConn) :=
  r <- native (NOpen name) res_err (Open (wd_parent d) name) ;;
  match r with
  | Err err => ret (Err err)
  | Ok conn => ret (Ok {| wc_tracer := wd_tracer d; wc_parent := conn |})
  end.

(** *** Connection facade *)

(* wrappedConn.Prepare, sql.go:65-72 *)
Definition wrappedConn_Prepare (c : wrappedConn) (query : string)
  : M (res wrappedStmt) :=
  r <- native (NPrepare query) res_err (Prepare (wc_parent c) query) ;;
  match r with
  | Err err => ret (Err err)
  | Ok parent =>
      ret (Ok {| ws_tracer := wc_tracer c; ws_ctx := ctxNil;
                 ws_query := query; ws_parent := parent |})
  end.

(* wrappedConn.Close, sql.go:74-76 *)
Definition wrappedConn_Close (c : wrappedConn) : M (option error) :=
  native NConnClose id (Conn_Close (wc_parent c)).

(* wrappedConn.Begin, sql.go:78-85 *)
Definition wrappedConn_Begin (c : wrappedConn) : M (res wrappedTx) :=
  r <- native NBegin res_err (Begin (wc_parent c)) ;;
  match r with
  | Err err => ret (Err err)
  | Ok tx =>
      ret (Ok {| wt_tracer := wc_tracer c; wt_ctx := ctxNil;
                 wt_parent := tx |})
  end.

(* wrappedConn.BeginTx, sql.go:87-112 *)
Definition wrappedConn_BeginTx (c : wrappedConn) (ctx : Context)
    (opts : TxOptions) : M (res wrappedTx) :=
  both ctx span <- tracer_Start (wc_tracer c) ctx "sql-tx-begin" ;;
  span_SetAttribute span "component" (AttrString "database/sql") ;;;
  deferred res_err ctx span
    match ConnBeginTx (wc_parent c) with
    | Some connBeginTx =>
        r <- native (NBeginTx ctx opts) res_err (connBeginTx ctx opts) ;;
        match r with
        | Err err => ret (Err err)
        | Ok tx =>
            ret (Ok {| wt_tracer := wc_tracer c; wt_ctx := ctx;
                       wt_parent := tx |})
        end
    | None =>
        r <- native NBegin res_err (Begin (wc_parent c)) ;;
        match r with
        | Err err => ret (Err err)
        | Ok tx =>
            ret (Ok {| wt_tracer := wc_tracer c; wt_ctx := ctx;
                       wt_parent := tx |})
        end
    end.

(* wrappedConn.PrepareContext, sql.go:116-137 *)
Definition wrappedConn_PrepareContext (c : wrappedConn) (ctx : Context)
    (query : string) : M (res wrappedStmt) :=
  both ctx span <- tracer_Start (wc_tracer c) ctx "sql-prepare" ;;
  span_SetAttribute span "component" (AttrString "database/sql") ;;;
  span_SetAttribute span queryLbl (AttrString query) ;;;
  deferred res_err ctx span
    match ConnPrepareContext (wc_parent c) with
    | Some connPrepareCtx =>
        r <- native (NPrepareContext ctx query) res_err
               (connPrepareCtx ctx query) ;;
        match r with
        | Err err => ret (Err err)
        | Ok stmt =>
            (* the composite literal leaves [query] at its zero value *)
            ret (Ok {| ws_tracer := wc_tracer c; ws_ctx := ctx;
                       ws_query := ""; ws_parent := stmt |})
        end
    | None => wrappedConn_Prepare c query
    end.

(* wrappedConn.Exec, sql.go:139-150 *)
Definition wrappedConn_Exec (c : wrappedConn) (query : string)
    (args : list Value) : M (res wrappedResult) :=
  match Execer (wc_parent c) with
  | Some execer =>
      r <- native (NConnExec query args) res_err (execer query args) ;;
      match r with
      | Err err => ret (Err err)
      | Ok res =>
          ret (Ok {| wr_tracer := wc_tracer c; wr_ctx := ctxNil;
                     wr_parent := res |})
      end
  | None => ret (Err ErrSkip)
  end.

(* wrappedConn.ExecContext, sql.go:157-191 *)
Definition wrappedConn_ExecContext (c : wrappedConn) (ctx : Context)
    (query : string) (args : list NamedValue) : M (res wrappedResult) :=
  both ctx span <- tracer_Start (wc_tracer c) ctx "sql-conn-exec" ;;
  span_SetAttribute span "component" (AttrString "database/sql") ;;;
  span_SetAttribute span queryLbl (AttrString query) ;;;
  span_SetAttribute span argsLbl (AttrPrettyNamed args) ;;;
  deferred res_err ctx span
    match ExecerContext (wc_parent c) with
    | Some execContext =>
        r <- native (NConnExecContext ctx query args) res_err
               (execContext ctx query args) ;;
        match r with
        | Err err => ret (Err err)
        | Ok res =>
            ret (Ok {| wr_tracer := wc_tracer c; wr_ctx := ctx;
                       wr_parent := res |})
        end
    | None =>
        (* Fallback implementation *)
        match namedValueToValue args with
        | Err err => ret (Err err)
        | Ok dargs =>
            match ctx_Err ctx with
            | Some err => ret (Err err)          (* case <-ctx.Done() *)
            | None => wrappedConn_Exec c query dargs
            end
        end
    end.

(* wrappedConn.Ping, sql.go:193-207 *)
Definition wrappedConn_Ping (c : wrappedConn) (ctx : Context)
  : M (option error) :=
  match Pinger (wc_parent c) with
  | Some pinger =>
      both ctx span <- tracer_Start (wc_tracer c) ctx "sql-ping" ;;
      span_SetAttribute span "component" (AttrString "database/sql") ;;;
      deferred id ctx span (native (NPing ctx) id (pinger ctx))
  | None => ret None
  end.

(* wrappedConn.Query, sql.go:209-220 *)
Definition wrappedConn_Query (c : wrappedConn) (query : string)
    (args : list Value) : M (res wrappedRows) :=
  match Queryer (wc_parent c) with
  | Some queryer =>
      r <- native (NConnQuery query args) res_err (queryer query args) ;;
      match r with
      | Err err => ret (Err err)
      | Ok rows =>
          ret (Ok {| wrows_tracer := wc_tracer c; wrows_ctx := ctxNil;
                     wrows_parent := rows |})
      end
  | None => ret (Err ErrSkip)
  end.

(* wrappedConn.QueryContext, sql.go:222-254 *)
Definition wrappedConn_QueryContext (c : wrappedConn) (ctx : Context)
    (query : string) (args : list NamedValue) : M (res wrappedRows) :=
  both ctx span <- tracer_Start (wc_tracer c) ctx "sql-conn-query" ;;
  span_SetAttribute span "component" (AttrString "database/sql") ;;;
  span_SetAttribute span queryLbl (AttrString query) ;;;
  span_SetAttribute span argsLbl (AttrPrettyNamed args) ;;;
  deferred res_err ctx span
    match QueryerContext (wc_parent c) with
    | Some queryerContext =>
        r <- native (NConnQueryContext ctx query args) res_err
               (queryerContext ctx query args) ;;
        match r with
        | Err err => ret (Err err)
        | Ok rows =>
            ret (Ok {| wrows_tracer := wc_tracer c; wrows_ctx := ctx;
                       wrows_parent := rows |})
        end
    | None =>
        match namedValueToValue args with
        | Err err => ret (Err err)
        | Ok dargs =>
            match ctx_Err ctx with
            | Some err => ret (Err err)          (* case <-ctx.Done() *)
            | None => wrappedConn_Query c query dargs
            end
        end
    end.

(** *** Transaction facade *)

(* wrappedTx.Commit, sql.go:256-267 *)
Definition wrappedTx_Commit (t : wrappedTx) : M (option error) :=
  both ctx span <- tracer_Start (wt_tracer t) (wt_ctx t) "sql-tx-commit" ;;
  span_SetAttribute span "component" (AttrString "database/sql") ;;;
  deferred id ctx span (native NCommit id (Commit (wt_parent t))).

(* wrappedTx.Rollback, sql.go:269-280 *)
Definition wrappedTx_Rollback (t : wrappedTx) : M (option error) :=
  both ctx span <- tracer_Start (wt_tracer t) (wt_ctx t) "sql-tx-rollback" ;;
  span_SetAttribute span "component" (AttrString "database/sql") ;;;
  deferred id ctx span (native NRollback id (Rollback (wt_parent t))).

(** *** Statement facade *)

(* wrappedStmt.Close, sql.go:282-293 *)
Definition wrappedStmt_Close (s : wrappedStmt) : M (option error) :=
  both ctx span <- tracer_Start (ws_tracer s) (ws_ctx s) "sql-stmt-close" ;;
  span_SetAttribute span "component" (AttrString "database/sql") ;;;
  deferred id ctx span (native NStmtClose id (Stmt_Close (ws_parent s))).

(* wrappedStmt.NumInput, sql.go:295-297 *)
Definition wrappedStmt_NumInput (s : wrappedStmt) : M Z :=
  native NNumInput no_err (NumInput (ws_parent s)).

(* wrappedStmt.Exec, sql.go:299-316 *)
Definition wrappedStmt_Exec (s : wrappedStmt) (args : list Value)
  : M (res wrappedResult) :=
  both ctx span <- tracer_Start (ws_tracer s) (ws_ctx s) "sql-stmt-exec" ;;
  span_SetAttribute span "component" (AttrString "database/sql") ;;;
  span_SetAttribute span queryLbl (AttrString (ws_query s)) ;;;
  span_SetAttribute span argsLbl (AttrPrettyValues args) ;;;
  deferred res_err ctx span
    (r <- native (NStmtExec args) res_err (Stmt_Exec (ws_parent s) args) ;;
     match r with
     | Err err => ret (Err err)
     | Ok res =>
         ret (Ok {| wr_tracer := ws_tracer s; wr_ctx := ws_ctx s;
                    wr_parent := res |})
     end).

(* wrappedStmt.Query, sql.go:318-335 *)
Definition wrappedStmt_Query (s : wrappedStmt) (args : list Value)
  : M (res wrappedRows) :=
  both ctx span <- tracer_Start (ws_tracer s) (ws_ctx s) "sql-stmt-query" ;;
  span_SetAttribute span "component" (AttrString "database/sql") ;;;
  span_SetAttribute span queryLbl (AttrString (ws_query s)) ;;;
  span_SetAttribute span argsLbl (AttrPrettyValues args) ;;;
  deferred res_err ctx span
    (r <- native (NStmtQuery args) res_err (Stmt_Query (ws_parent s) args) ;;
     match r with
     | Err err => ret (Err err)
     | Ok rows =>
         ret (Ok {| wrows_tracer := ws_tracer s; wrows_ctx := ws_ctx s;
                    wrows_parent := rows |})
     end).

(** In the two methods below the parameter [ctx] is assigned the context
    that [tracer.Start(s.ctx, _)] returns before it is read: the short
    variable declaration [ctx, span := ...] in the function's outermost block
    redeclares the parameter.  The argument is therefore named [_ctx]. *)
(* wrappedStmt.ExecContext, sql.go:337-370 *)
Definition wrappedStmt_ExecContext (s : wrappedStmt) (_ctx : Context)
    (args : list NamedValue) : M (res wrappedResult) :=
  both ctx span <- tracer_Start (ws_tracer s) (ws_ctx s) "sql-stmt-exec" ;;
  span_SetAttribute span "component" (AttrString "database/sql") ;;;
  span_SetAttribute span queryLbl (AttrString (ws_query s)) ;;;
  span_SetAttribute span argsLbl (AttrPrettyNamed args) ;;;
  deferred res_err ctx span
    match StmtExecContext (ws_parent s) with
    | Some stmtExecContext =>
        r <- native (NStmtExecContext ctx args) res_err
               (stmtExecContext ctx args) ;;
        match r with
        | Err err => ret (Err err)
        | Ok res =>
            ret (Ok {| wr_tracer := ws_tracer s; wr_ctx := ctx;
                       wr_parent := res |})
        end
    | None =>
        (* Fallback implementation *)
        match namedValueToValue args with
        | Err err => ret (Err err)
        | Ok dargs =>
            match ctx_Err ctx with
            | Some err => ret (Err err)          (* case <-ctx.Done() *)
            | None => wrappedStmt_Exec s dargs
            end
        end
    end.

(* wrappedStmt.QueryContext, sql.go:372-404 *)
Definition wrappedStmt_QueryContext (s : wrappedStmt) (_ctx : Context)
    (args : list NamedValue) : M (res wrappedRows) :=
  both ctx span <- tracer_Start (ws_tracer s) (ws_ctx s) "sql-stmt-query" ;;
  span_SetAttribute span "component" (AttrString "database/sql") ;;;
  span_SetAttribute span queryLbl (AttrString (ws_query s)) ;;;
  span_SetAttribute span argsLbl (AttrPrettyNamed args) ;;;
  deferred res_err ctx span
    match StmtQueryContext (ws_parent s) with
    | Some stmtQueryContext =>
        r <- native (NStmtQueryContext ctx args) res_err
               (stmtQueryContext ctx args) ;;
        match r with
        | Err err => ret (Err err)
        | Ok rows =>
            ret (Ok {| wrows_tracer := ws_tracer s; wrows_ctx := ctx;
                       wrows_parent := rows |})
        end
    | None =>
        match namedValueToValue args with
        | Err err => ret (Err err)
        | Ok dargs =>
            match ctx_Err ctx with
            | Some err => ret (Err err)          (* case <-ctx.Done() *)
            | None => wrappedStmt_Query s dargs
            end
        end
    end.

(** *** Result facade *)

(* wrappedResult.LastInsertId, sql.go:406-417 *)
Definition wrappedResult_LastInsertId (r : wrappedResult)
  : M (Z * option error) :=
  both ctx span <-
    tracer_Start (wr_tracer r) (wr_ctx r) "sql-res-lastInsertId" ;;
  span_SetAttribute span "component" (AttrString "database/sql") ;;;
  deferred snd ctx span
    (native NLastInsertId snd (LastInsertId (wr_parent r))).

(* wrappedResult.RowsAffected, sql.go:419-430 *)
Definition wrappedResult_RowsAffected (r : wrappedResult)
  : M (Z * option error) :=
  both ctx span <-
    tracer_Start (wr_tracer r) (wr_ctx r) "sql-res-rowsAffected" ;;
  span_SetAttribute span "component" (AttrString "database/sql") ;;;
  deferred snd ctx span
    (native NRowsAffected snd (RowsAffected (wr_parent r))).

(** *** Row-cursor facade *)

(* wrappedRows.Columns, sql.go:432-434 *)
Definition wrappedRows_Columns (r : wrappedRows) : M (list string) :=
  native NColumns no_err (Columns (wrows_parent r)).

(* wrappedRows.Close, sql.go:436-438 *)
Definition wrappedRows_Close (r : wrappedRows) : M (option error) :=
  native NRowsClose id (Rows_Close (wrows_parent r)).

(* wrappedRows.Next, sql.go:440-451 *)
Definition wrappedRows_Next (r : wrappedRows) (dest : list Value)
  : M (list Value * option error) :=
  both ctx span <-
    tracer_Start (wrows_tracer r) (wrows_ctx r) "sql-rows-next" ;;
  span_SetAttribute span "component" (AttrString "database/sql") ;;;
  deferred snd ctx span
    (native (NNext dest) snd (Next (wrows_parent r) dest)).

(** ** Operations, uniformly *)

(** One invocation of a facade method: the receiver and the arguments. *)
Inductive Op : Type :=
| OpOpen (d : wrappedDriver) (name : string)
| OpPrepare (c : wrappedConn) (query : string)
| OpConnClose (c : wrappedConn)
| OpBegin (c : wrappedConn)
| OpBeginTx (c : wrappedConn) (ctx : Context) (opts : TxOptions)
| OpPrepareContext (c : wrappedConn) (ctx : Context) (query : string)
| OpConnExec (c : wrappedConn) (query : string) (args : list Value)
| OpConnExecContext (c : wrappedConn) (ctx : Context) (query : string)
    (args : list NamedValue)
| OpPing (c : wrappedConn) (ctx : Context)
| OpConnQuery (c : wrappedConn) (query : string) (args : list Value)
| OpConnQueryContext (c : wrappedConn) (ctx : Context) (query : string)
    (args : list NamedValue)
| OpCommit (t : wrappedTx)
| OpRollback (t : wrappedTx)
| OpStmtClose (s : wrappedStmt)
| OpNumInput (s : wrappedStmt)
| OpStmtExec (s : wrappedStmt) (args : list Value)
| OpStmtQuery (s : wrappedStmt) (args : list Value)
| OpStmtExecContext (s : wrappedStmt) (ctx : Context)
    (args : list NamedValue)
| OpStmtQueryContext (s : wrappedStmt) (ctx : Context)
    (args : list NamedValue)
| OpLastInsertId (r : wrappedResult)
| OpRowsAffected (r : wrappedResult)
| OpColumns (r : wrappedRows)
| OpRowsClose (r : wrappedRows)
| OpNext (r : wrappedRows) (dest : list Value).

(** Run a method and keep the error it returns to the caller. *)
Definition returning {A} (err_of : A -> option error) (m : M A)
  : M (option error) :=
  a <- m ;; ret (err_of a).

Definition run (op : Op) : M (option error) :=
  match op with
  | OpOpen d name => returning res_err (wrappedDriver_Open d name)
  | OpPrepare c query => returning res_err (wrappedConn_Prepare c query)
  | OpConnClose c => wrappedConn_Close c
  | OpBegin c => returning res_err (wrappedConn_Begin c)
  | OpBeginTx c ctx opts => returning res_err (wrappedConn_BeginTx c ctx opts)
  | OpPrepareContext c ctx query =>
      returning res_err (wrappedConn_PrepareContext c ctx query)
  | OpConnExec c query args => returning res_err (wrappedConn_Exec c query args)
  | OpConnExecContext c ctx query args =>
      returning res_err (wrappedConn_ExecContext c ctx query args)
  | OpPing c ctx => wrappedConn_Ping c ctx
  | OpConnQuery c query args =>
      returning res_err (wrappedConn_Query c query args)
  | OpConnQueryContext c ctx query args =>
      returning res_err (wrappedConn_QueryContext c ctx query args)
  | OpCommit t => wrappedTx_Commit t
  | OpRollback t => wrappedTx_Rollback t
  | OpStmtClose s => wrappedStmt_Close s
  | OpNumInput s => returning no_err (wrappedStmt_NumInput s)
  | OpStmtExec s args => returning res_err (wrappedStmt_Exec s args)
  | OpStmtQuery s args => returning res_err (wrappedStmt_Query s args)
  | OpStmtExecContext s ctx args =>
      returning res_err (wrappedStmt_ExecContext s ctx args)
  | OpStmtQueryContext s ctx args =>
      returning res_err (wrappedStmt_QueryContext s ctx args)
  | OpLastInsertId r => returning snd (wrappedResult_LastInsertId r)
  | OpRowsAffected r => returning snd (wrappedResult_RowsAffected r)
  | OpColumns r => returning no_err (wrappedRows_Columns r)
  | OpRowsClose r => wrappedRows_Close r
  | OpNext r dest => returning snd (wrappedRows_Next r dest)
  end.

(** The entries a computation appends to the log. *)
Definition emitted {A} (m : M A) (w : World) : list Event :=
  drop (length (log w)) (log (snd (m w))).

(** The statement-scope calls that take the fallback branch: the wrapped
    statement lacks the context-aware interface. *)
Definition stmt_fallback (op : Op) : bool :=
  match op with
  | OpStmtExecContext s _ _ =>
      match StmtExecContext (ws_parent s) with Some _ => false | None => true end
  | OpStmtQueryContext s _ _ =>
      match StmtQueryContext (ws_parent s) with Some _ => false | None => true end
  | _ => false
  end.

(** The connection-scope calls that take the fallback branch. *)
Definition conn_fallback (op : Op) : bool :=
  match op with
  | OpConnExecContext c _ _ _ =>
      match ExecerContext (wc_parent c) with Some _ => false | None => true end
  | OpConnQueryContext c _ _ _ =>
      match QueryerContext (wc_parent c) with Some _ => false | None => true end
  | _ => false
  end.

Definition fallback (op : Op) : bool := conn_fallback op || stmt_fallback op.

(** The named argument list and the context a context-aware call is given. *)
Definition op_args (op : Op) : list NamedValue :=
  match op with
  | OpConnExecContext _ _ _ args | OpConnQueryContext _ _ _ args
  | OpStmtExecContext _ _ args | OpStmtQueryContext _ _ args => args
  | _ => []
  end.

Definition op_ctx (op : Op) : Context :=
  match op with
  | OpBeginTx _ ctx _ | OpPrepareContext _ ctx _
  | OpConnExecContext _ ctx _ _ | OpConnQueryContext _ ctx _ _
  | OpPing _ ctx
  | OpStmtExecContext _ ctx _ | OpStmtQueryContext _ ctx _ => ctx
  | _ => ctxNil
  end.

(** The span an operation opens in its own body, by name; [None] for the
    methods that delegate without tracing.  [Ping] is traced only when the
    wrapped connection is a [driver.Pinger]. *)
Definition span_name (op : Op) : option string :=
  match op with
  | OpBeginTx _ _ _ => Some "sql-tx-begin"
  | OpPrepareContext _ _ _ => Some "sql-prepare"
  | OpConnExecContext _ _ _ _ => Some "sql-conn-exec"
  | OpPing c _ =>
      match Pinger (wc_parent c) with
      | Some _ => Some "sql-ping"
      | None => None
      end
  | OpConnQueryContext _ _ _ _ => Some "sql-conn-query"
  | OpCommit _ => Some "sql-tx-commit"
  | OpRollback _ => Some "sql-tx-rollback"
  | OpStmtClose _ => Some "sql-stmt-close"
  | OpStmtExec _ _ | OpStmtExecContext _ _ _ => Some "sql-stmt-exec"
  | OpStmtQuery _ _ | OpStmtQueryContext _ _ _ => Some "sql-stmt-query"
  | OpLastInsertId _ => Some "sql-res-lastInsertId"
  | OpRowsAffected _ => Some "sql-res-rowsAffected"
  | OpNext _ _ => Some "sql-rows-next"
  | OpOpen _ _ | OpPrepare _ _ | OpConnClose _ | OpBegin _
  | OpConnExec _ _ _ | OpConnQuery _ _ _ | OpNumInput _
  | OpColumns _ | OpRowsClose _ => None
  end.

(** A parameter is positional when its name is empty. *)
Definition unnamed (p : NamedValue) : Prop := nvName p = "".

(** ** A client of the driver contract *)

(** Everything the caller of open, prepare, exec, close gets to see. *)
Inductive Observation : Type :=
| ObsOpenFailed (err : error)
| ObsPrepareFailed (err : error) (conn_close : option error)
| ObsDone (exec : res ((Z * option error) * (Z * option error)))
    (stmt_close conn_close : option error).

(** open, prepare, exec (reading both accessors of the result), close the
    statement, close the connection, through the facades, with the methods
    [database/sql] calls on a connection and a statement that have them:
    [PrepareContext] with the context of the prepare, [ExecContext] with
    the context of the exec. *)
Definition ctx_trip_wrapped (d : wrappedDriver) (name query : string)
    (pctx ectx : Context) (args : list NamedValue) : M Observation :=
  r <- wrappedDriver_Open d name ;;
  match r with
  | Err err => ret (ObsOpenFailed err)
  | Ok c =>
      r <- wrappedConn_PrepareContext c pctx query ;;
      match r with
      | Err err => cc <- wrappedConn_Close c ;; ret (ObsPrepareFailed err cc)
      | Ok s =>
          r <- wrappedStmt_ExecContext s ectx args ;;
          x <- match r with
               | Err err => ret (Err err)
               | Ok result =>
                   a <- wrappedResult_LastInsertId result ;;
                   b <- wrappedResult_RowsAffected result ;;
                   ret (Ok (a, b))
               end ;;
          sc <- wrappedStmt_Close s ;;
          cc <- wrappedConn_Close c ;;
          ret (ObsDone x sc cc)
      end
  end.

(** The same sequence directly on a native driver whose connection and
    statement implement the context-aware interfaces; [None] when they do
    not, since the sequence cannot be written then. *)
Definition ctx_trip_native (d : Driver) (name query : string)
    (pctx ectx : Context) (args : list NamedValue)
  : M (option Observation) :=
  r <- native (NOpen name) res_err (Open d name) ;;
  match r with
  | Err err => ret (Some (ObsOpenFailed err))
  | Ok c =>
      match ConnPrepareContext c with
      | None => ret None
      | Some prepareContext =>
          r <- native (NPrepareContext pctx query) res_err
                 (prepareContext pctx query) ;;
          match r with
          | Err err =>
              cc <- native NConnClose id (Conn_Close c) ;;
              ret (Some (ObsPrepareFailed err cc))
          | Ok s =>
              match StmtExecContext s with
              | None => ret None
              | Some execContext =>
                  r <- native (NStmtExecContext ectx args) res_err
                         (execContext ectx args) ;;
                  x <- match r with
                       | Err err => ret (Err err)
                       | Ok result =>
                           a <- native NLastInsertId snd
                                  (LastInsertId result) ;;
                           b <- native NRowsAffected snd
                                  (RowsAffected result) ;;
                           ret (Ok (a, b))
                       end ;;
                  sc <- native NStmtClose id (Stmt_Close s) ;;
                  cc <- native NConnClose id (Conn_Close c) ;;
                  ret (Some (ObsDone x sc cc))
              end
          end
      end
  end.

(** ** Two more clients: a cursor and a transaction *)

(** The mandatory methods of a statement and its row cursor. *)
Class CursorAPI (S Rw : Type) : Type := {
  q_NumInput : S -> M Z;
  q_Query : S -> list Value -> M (res Rw);
  q_Columns : Rw -> M (list string);
  q_Next : Rw -> list Value -> M (list Value * option error);
  q_RowsClose : Rw -> M (option error);
  q_StmtClose : S -> M (option error)
}.

#[export] Instance native_CursorAPI : CursorAPI Stmt Rows := {
  q_NumInput s := native NNumInput no_err (NumInput s);
  q_Query s args := native (NStmtQuery args) res_err (Stmt_Query s args);
  q_Columns r := native NColumns no_err (Columns r);
  q_Next r dest := native (NNext dest) snd (Next r dest);
  q_RowsClose r := native NRowsClose id (Rows_Close r);
  q_StmtClose s := native NStmtClose id (Stmt_Close s)
}.

#[export] Instance wrapped_CursorAPI : CursorAPI wrappedStmt wrappedRows := {
  q_NumInput := wrappedStmt_NumInput;
  q_Query := wrappedStmt_Query;
  q_Columns := wrappedRows_Columns;
  q_Next := wrappedRows_Next;
  q_RowsClose := wrappedRows_Close;
  q_StmtClose := wrappedStmt_Close
}.

(** What the caller of a query on a statement sees: the number of
    placeholders, the column names, two rows (or the error that ended the
    iteration), and the errors of the two closes. *)
Inductive CursorObservation : Type :=
| QObsQueryFailed (num_input : Z) (err : error) (stmt_close : option error)
| QObsRows (num_input : Z) (columns : list string)
    (first second : list Value * option error)
    (rows_close stmt_close : option error).

(** On a statement: number of placeholders, query, read the columns,
    advance the cursor twice into the same buffer, close the cursor, close
    the statement. *)
Definition cursor_trip {S Rw} `{CursorAPI S Rw}
    (s : S) (args dest : list Value) : M CursorObservation :=
  n <- q_NumInput s ;;
  r <- q_Query s args ;;
  match r with
  | Err err => sc <- q_StmtClose s ;; ret (QObsQueryFailed n err sc)
  | Ok rows =>
      cols <- q_Columns rows ;;
      row1 <- q_Next rows dest ;;
      row2 <- q_Next rows (fst row1) ;;
      rc <- q_RowsClose rows ;;
      sc <- q_StmtClose s ;;
      ret (QObsRows n cols row1 row2 rc sc)
  end.

(** The mandatory methods a transaction goes through. *)
Class TxAPI (D C T : Type) : Type := {
  t_Open : D -> string -> M (res C);
  t_Begin : C -> M (res T);
  t_Commit : T -> M (option error);
  t_Rollback : T -> M (option error);
  t_ConnClose : C -> M (option error)
}.

#[export] Instance native_TxAPI : TxAPI Driver Conn Tx := {
  t_Open d name := native (NOpen name) res_err (Open d name);
  t_Begin c := native NBegin res_err (Begin c);
  t_Commit t := native NCommit id (Commit t);
  t_Rollback t := native NRollback id (Rollback t);
  t_ConnClose c := native NConnClose id (Conn_Close c)
}.

#[export] Instance wrapped_TxAPI
  : TxAPI wrappedDriver wrappedConn wrappedTx := {
  t_Open := wrappedDriver_Open;
  t_Begin := wrappedConn_Begin;
  t_Commit := wrappedTx_Commit;
  t_Rollback := wrappedTx_Rollback;
  t_ConnClose := wrappedConn_Close
}.

Inductive TxObservation : Type :=
| TObsOpenFailed (err : error)
| TObsBeginFailed (err : error) (conn_close : option error)
| TObsDone (commit : option error) (rollback : option (option error))
    (conn_close : option error).

(** open, begin, commit, roll back when the commit failed, close. *)
Definition tx_trip {D C T} `{TxAPI D C T} (d : D) (name : string)
  : M TxObservation :=
  r <- t_Open d name ;;
  match r with
  | Err err => ret (TObsOpenFailed err)
  | Ok c =>
      r <- t_Begin c ;;
      match r with
      | Err err => cc <- t_ConnClose c ;; ret (TObsBeginFailed err cc)
      | Ok t =>
          ce <- t_Commit t ;;
          rb <- match ce with
                | Some _ => e <- t_Rollback t ;; ret (Some e)
                | None => ret None
                end ;;
          cc <- t_ConnClose c ;;
          ret (TObsDone ce rb cc)
      end
  end.

End Facades.

(** ** Test doubles

    A native driver over a store that remembers the statements executed
    on it, in two flavours: one that implements only the mandatory
    interfaces, one that implements the context-aware ones as well and
    honours cancellation. *)

Definition mockDB : Type := list (string * list Value).

Definition mockResult : @Result mockDB := {|
  LastInsertId := fun d => ((Z.of_nat (length d), None), d);
  RowsAffected := fun d => ((1%Z, None), d)
|}.

Definition mockRows : @Rows mockDB := {|
  Columns := fun d => (["id"], d);
  Rows_Close := fun d => (None, d);
  Next := fun dest d => (([VInt 1], None), d)
|}.

Definition mock_exec (query : string) (args : list Value) (d : mockDB)
  : res (@Result mockDB) * mockDB :=
  (Ok mockResult, (d ++ [(query, args)])%list).

Definition mock_exec_ctx (query : string) (ctx : Context)
    (args : list NamedValue) (d : mockDB) : res (@Result mockDB) * mockDB :=
  match ctx_Err ctx with
  | Some err => (Err err, d)
  | None => (Ok mockResult, (d ++ [(query, nvValue <$> args)])%list)
  end.

Definition mockStmt (query : string) : @Stmt mockDB := {|
  Stmt_Close := fun d => (None, d);
  NumInput := fun d => (0%Z, d);
  Stmt_Exec := mock_exec query;
  Stmt_Query := fun args d => (Ok mockRows, d);
  StmtExecContext := None;
  StmtQueryContext := None
|}.

Definition mockStmtCtx (query : string) : @Stmt mockDB := {|
  Stmt_Close := fun d => (None, d);
  NumInput := fun d => (0%Z, d);
  Stmt_Exec := mock_exec query;
  Stmt_Query := fun args d => (Ok mockRows, d);
  StmtExecContext := Some (mock_exec_ctx query);
  StmtQueryContext := Some (fun ctx args d => (Ok mockRows, d))
|}.

Definition mockTx : @Tx mockDB := {|
  Commit := fun d => (None, d);
  Rollback := fun d => (Some (ErrDriver "rollback failed"), d)
|}.

(** A connection with the mandatory methods only. *)
Definition mockConn : @Conn mockDB := {|
  Prepare := fun query d => (Ok (mockStmt query), d);
  Conn_Close := fun d => (None, d);
  Begin := fun d => (Ok mockTx, d);
  ConnBeginTx := None;
  ConnPrepareContext := None;
  Execer := None;
  ExecerContext := None;
  Pinger := None;
  Queryer := None;
  QueryerContext := None
|}.

(** A connection with the legacy direct execution and query methods, and
    nothing context-aware. *)
Definition mockConnLegacy : @Conn mockDB := {|
  Prepare := fun query d => (Ok (mockStmt query), d);
  Conn_Close := fun d => (None, d);
  Begin := fun d => (Ok mockTx, d);
  ConnBeginTx := None;
  ConnPrepareContext := None;
  Execer := Some mock_exec;
  ExecerContext := None;
  Pinger := None;
  Queryer := Some (fun query args d => (Ok mockRows, d));
  QueryerContext := None
|}.

(** A connection with every optional interface. *)
Definition mockConnCtx : @Conn mockDB := {|
  Prepare := fun query d => (Ok (mockStmtCtx query), d);
  Conn_Close := fun d => (None, d);
  Begin := fun d => (Ok mockTx, d);
  ConnBeginTx := Some (fun ctx opts d => (Ok mockTx, d));
  ConnPrepareContext := Some (fun ctx query d => (Ok (mockStmt query), d));
  Execer := Some mock_exec;
  ExecerContext := Some (fun ctx query => mock_exec_ctx query ctx);
  Pinger := Some (fun ctx d => (Some (ErrDriver "connection lost"), d));
  Queryer := Some (fun query args d => (Ok mockRows, d));
  QueryerContext := Some (fun ctx query args d => (Ok mockRows, d))
|}.

(** A connection whose prepared statements are context-aware too, and
    the driver that opens it. *)
Definition mockConnCtxAware : @Conn mockDB := {|
  Prepare := fun query d => (Ok (mockStmtCtx query), d);
  Conn_Close := fun d => (None, d);
  Begin := fun d => (Ok mockTx, d);
  ConnBeginTx := Some (fun ctx opts d => (Ok mockTx, d));
  ConnPrepareContext :=
    Some (fun ctx query d => (Ok (mockStmtCtx query), d));
  Execer := Some mock_exec;
  ExecerContext := Some (fun ctx query => mock_exec_ctx query ctx);
  Pinger := Some (fun ctx d => (None, d));
  Queryer := Some (fun query args d => (Ok mockRows, d));
  QueryerContext := Some (fun ctx query args d => (Ok mockRows, d))
|}.

Definition mockDriverCtx : @Driver mockDB := {|
  Open := fun name d => (Ok mockConnCtxAware, d)
|}.

Definition mockDriver : @Driver mockDB := {|
  Open := fun name d => (Ok mockConn, d)
|}.

Definition mockWorld : @World mockDB :=
  {| db := []; log := []; next_span := 0 |}.

Definition tracer0 : Tracer := "postgres".

Definition live : Context := ctxUser 0 None.
Definition cancelled : Context := ctxUser 1 (Some ErrCanceled).

(** The statement that [PrepareContext] returns for ["INSERT"] on a
    connection that prepares with a context but whose statements implement
    only the mandatory methods, and the one [Prepare] returns. *)
Definition stmtFromPrepareContext : @wrappedStmt mockDB :=
  {| ws_tracer := tracer0; ws_ctx := ctxWithSpan live 0;
     ws_query := ""; ws_parent := mockStmt "INSERT" |}.

Definition stmtFromPrepare : @wrappedStmt mockDB :=
  {| ws_tracer := tracer0; ws_ctx := ctxNil;
     ws_query := "INSERT"; ws_parent := mockStmt "INSERT" |}.

(** The world after that [PrepareContext]: span 0 opened and closed, one
    native call. *)
Definition worldAfterPrepareContext : @World mockDB :=
  {| db := [];
     log := [Start tracer0 live "sql-prepare" 0;
             SetAttr 0 "component" (AttrString "database/sql");
             SetAttr 0 "query" (AttrString "INSERT");
             Native (NPrepareContext (ctxWithSpan live 0) "INSERT") None;
             End 0];
     next_span := 1 |}.

Definition positional (v : Value) : NamedValue :=
  {| nvName := ""; nvOrdinal := 1; nvValue := v |}.
Definition named (name : string) (v : Value) : NamedValue :=
  {| nvName := name; nvOrdinal := 1; nvValue := v |}.

(** * Properties *)

(** ** Argument conversion *)

Lemma name_test_false (s : string) :
  (0 <? String.length s)%nat = false <-> s = "".
Proof.
  destruct s; simpl; split; intros H; try reflexivity; discriminate.
Qed.

(** Loop invariant: the slots below [n] are filled, those from [n] on are
    still to be written, one per remaining parameter. *)
Lemma namedValueToValue_loop_positional (rest : list NamedValue) :
  forall (filled pending : list Value),
    Forall unnamed rest ->
    length pending = length rest ->
    namedValueToValue_loop (length filled) rest (filled ++ pending)
    = Ok (filled ++ (nvValue <$> rest)).
Proof.
  induction rest as [|param rest IH]; intros filled pending Hall Hlen.
  - destruct pending; [|discriminate]. reflexivity.
  - destruct pending as [|slot pending]; [discriminate|].
    apply Forall_cons in Hall as [Hp Hall].
    simpl. apply name_test_false in Hp. rewrite Hp.
    replace (length filled) with (length filled + 0) at 2 by lia.
    rewrite insert_app_r. simpl.
    specialize (IH (filled ++ [nvValue param]) pending Hall).
    rewrite length_app in IH. simpl in IH.
    replace (length filled + 1) with (S (length filled)) in IH by lia.
    rewrite <- !(assoc_L (++)) in IH. simpl in IH.
    apply IH. simpl in Hlen. lia.
Qed.

Lemma namedValueToValue_loop_named (rest : list NamedValue) :
  forall (n : nat) (dargs : list Value),
    Exists (fun p => nvName p <> "") rest ->
    namedValueToValue_loop n rest dargs = Err errNamedParameters.
Proof.
  induction rest as [|param rest IH]; intros n dargs Hex.
  - inversion Hex.
  - simpl. destruct (0 <? String.length (nvName param))%nat eqn:Hp.
    + reflexivity.
    + apply IH. apply Exists_cons in Hex as [Hn | Hex]; [|exact Hex].
      apply name_test_false in Hp. contradiction.
Qed.

Lemma namedValueToValue_positional (args : list NamedValue) :
  Forall unnamed args -> namedValueToValue args = Ok (nvValue <$> args).
Proof.
  intros Hall. unfold namedValueToValue.
  apply (namedValueToValue_loop_positional args [] _ Hall).
  apply length_replicate.
Qed.

Lemma namedValueToValue_named (args : list NamedValue) :
  Exists (fun p => nvName p <> "") args ->
  namedValueToValue args = Err errNamedParameters.
Proof. apply namedValueToValue_loop_named. Qed.

(** ** Running the facades *)

(** Unfold a facade method down to the native functions it calls, on a
    world given by its three fields. *)
Ltac open_worlds :=
  repeat match goal with
         | w : World |- _ => destruct w
         end.

Ltac unfold_facades :=
  open_worlds;
  cbv [run returning
       wrappedDriver_Open
       wrappedConn_Prepare wrappedConn_Close wrappedConn_Begin
       wrappedConn_BeginTx wrappedConn_PrepareContext
       wrappedConn_Exec wrappedConn_ExecContext wrappedConn_Ping
       wrappedConn_Query wrappedConn_QueryContext
       wrappedTx_Commit wrappedTx_Rollback
       wrappedStmt_Close wrappedStmt_NumInput
       wrappedStmt_Exec wrappedStmt_Query
       wrappedStmt_ExecContext wrappedStmt_QueryContext
       wrappedResult_LastInsertId wrappedResult_RowsAffected
       wrappedRows_Columns wrappedRows_Close wrappedRows_Next
       deferred tracer_Start span_SetAttribute span_RecordError span_End
       native emit bind ret no_err queryLbl argsLbl
       stmt_fallback conn_fallback fallback op_args op_ctx span_name
       db log next_span fst snd];
  cbn [wd_tracer wd_parent wc_tracer wc_parent wt_tracer wt_ctx wt_parent
       ws_tracer ws_ctx ws_query ws_parent wr_tracer wr_ctx wr_parent
       wrows_tracer wrows_ctx wrows_parent].

(** Split on the next thing the method branches on: an optional interface,
    the outcome of a native call, of the conversion, of the [Done] check. *)
Ltac branch :=
  match goal with
  | |- context [match ?x with _ => _ end] =>
      lazymatch x with
      | context [match _ with _ => _ end] => fail
      | _ => destruct x eqn:?
      end
  end;
  cbn [res_err id ctx_Err
       wd_tracer wd_parent wc_tracer wc_parent wt_tracer wt_ctx wt_parent
       ws_tracer ws_ctx ws_query ws_parent wr_tracer wr_ctx wr_parent
       wrows_tracer wrows_ctx wrows_parent] in *.

(** Bring the log of the final world to the form [log w ++ new] and read
    off [new]. *)
Ltac read_emitted :=
  rewrite <- ?(assoc_L (++)); rewrite ?drop_app_length, ?drop_all;
  cbn [app].

Ltac run_facade :=
  unfold emitted; unfold_facades; repeat branch; read_emitted.

Section Properties.

Context {DB : Type}.
Implicit Types (w : @World DB) (op : @Op DB).

(** No span is left open: whatever an operation returns, it has ended as
    many spans as it has started. *)
Lemma spans_balanced op w :
  count_starts (emitted (run op) w) = count_ends (emitted (run op) w).
Proof.
  destruct op; run_facade; reflexivity.
Qed.

(** Apart from the statement-scope fallback, an operation opens the one
    span named for it, or none when it is a plain delegation. *)
Lemma one_span_unless_stmt_fallback op w :
  stmt_fallback op = false ->
  started (emitted (run op) w)
  = match span_name op with
    | Some name => [(next_span w, name)]
    | None => []
    end.
Proof.
  revert w; destruct op; intros w; run_facade;
    intros; try discriminate; reflexivity.
Qed.

(** A statement made by the legacy [Prepare] keeps the query text. *)
Lemma Prepare_captures_query (c : @wrappedConn DB) query w stmt :
  fst (wrappedConn_Prepare c query w) = Ok stmt -> ws_query stmt = query.
Proof.
  unfold_facades; repeat branch; intros H; inversion H; reflexivity.
Qed.

(** So does one made by [PrepareContext] when it falls back to [Prepare]. *)
Lemma PrepareContext_fallback_captures_query (c : @wrappedConn DB) ctx
    query w stmt :
  ConnPrepareContext (wc_parent c) = None ->
  fst (wrappedConn_PrepareContext c ctx query w) = Ok stmt ->
  ws_query stmt = query.
Proof.
  intros Hcap. unfold wrappedConn_PrepareContext; rewrite Hcap.
  unfold_facades; repeat branch; intros H; inversion H; reflexivity.
Qed.

(** Every span a statement opens carries the statement's [query] field. *)
Lemma stmt_spans_carry_query op w (s : @wrappedStmt DB) span name :
  match op with
  | OpStmtExec s' _ | OpStmtQuery s' _
  | OpStmtExecContext s' _ _ | OpStmtQueryContext s' _ _ => s' = s
  | _ => False
  end ->
  In (span, name) (started (emitted (run op) w)) ->
  In (SetAttr span "query" (AttrString (ws_query s)))
     (emitted (run op) w).
Proof.
  revert w; destruct op; intros w Hs; try contradiction; subst;
    run_facade; cbn [started In]; intros Hin;
    repeat match goal with
           | H : _ \/ _ |- _ => destruct H
           | H : False |- _ => contradiction
           | H : (_, _) = (_, _) |- _ => inversion H; clear H; subst
           end;
    auto 12.
Qed.

(** ** Span count *)

(** C1, where the code departs from it.  The claim asks for exactly one
    span per traced operation, in particular for [wrappedStmt.ExecContext]
    and [wrappedStmt.QueryContext] on the fallback path.  There the method
    opens its span and then calls the statement's own traced [Exec] (resp.
    [Query]), which opens a second span of the same name: a call that
    completes successfully has started two spans and ended two. *)
Theorem stmt_fallback_starts_two_spans op w :
  stmt_fallback op = true ->
  fst (run op w) = None ->
  exists name,
    span_name op = Some name /\
    started (emitted (run op) w)
    = [(next_span w, name); (S (next_span w), name)] /\
    count_starts (emitted (run op) w) = 2 /\
    count_ends (emitted (run op) w) = 2.
Proof.
  revert w; destruct op; intros w; run_facade;
    intros; try discriminate; eexists; repeat split; reflexivity.
Qed.

(** ** Query text *)

(** C2, where the code departs from it.  The claim asks that a statement
    carries the query text it was prepared with on every path, including
    [PrepareContext] over a connection that prepares with a context.  On
    that path the facade is built without its [query] field: the statement
    holds the empty string, and that is what its [sql-stmt-exec] span gets
    as [query] attribute. *)
Theorem PrepareContext_drops_query (c : @wrappedConn DB) ctx query w stmt
    connPrepareCtx :
  ConnPrepareContext (wc_parent c) = Some connPrepareCtx ->
  fst (wrappedConn_PrepareContext c ctx query w) = Ok stmt ->
  ws_query stmt = "" /\
  forall args w',
    In (SetAttr (next_span w') "query" (AttrString ""))
       (emitted (run (OpStmtExec stmt args)) w').
Proof.
  intros Hcap Hret.
  assert (Hq : ws_query stmt = "").
  { revert Hret. unfold_facades. rewrite Hcap. repeat branch;
      intros H; inversion H; reflexivity. }
  split; [exact Hq|].
  intros args w'.
  replace (AttrString "") with (AttrString (ws_query stmt))
    by (rewrite Hq; reflexivity).
  apply (stmt_spans_carry_query (OpStmtExec stmt args) w' stmt
           (next_span w') "sql-stmt-exec"); [reflexivity|].
  rewrite one_span_unless_stmt_fallback by reflexivity.
  simpl. left. reflexivity.
Qed.

(** ** The fallback branch: conversion and cancellation *)

(** The conversion either went through or hit a name; this settles which,
    from what is known about the arguments. *)
Ltac settle_conversion :=
  repeat match goal with
         | H : Forall unnamed ?a, E : namedValueToValue ?a = _ |- _ =>
             rewrite (namedValueToValue_positional a H) in E
         | H : Exists _ ?a, E : namedValueToValue ?a = _ |- _ =>
             rewrite (namedValueToValue_named a H) in E
         end.

(** C6.  An argument list with a named argument makes every fallback call,
    at connection and at statement scope, fail with the named-parameter
    error before any native call; a list of positional arguments converts
    to the list of its values, same length, same order. *)
Theorem named_parameters_rejected (args : list NamedValue) :
  (Exists (fun p => nvName p <> "") args ->
   namedValueToValue args = Err errNamedParameters /\
   forall op w,
     fallback op = true -> op_args op = args ->
     fst (run op w) = Some errNamedParameters /\
     native_calls (emitted (run op) w) = []) /\
  (Forall unnamed args ->
   exists dargs,
     namedValueToValue args = Ok dargs /\
     length dargs = length args /\
     forall i, dargs !! i = nvValue <$> (args !! i)).
Proof.
  split.
  - intros Hex. split; [apply namedValueToValue_named, Hex|].
    intros op w Hfb Hargs. revert Hfb.
    destruct op; cbn [op_args] in Hargs; subst;
      try (inversion Hex; fail);
      run_facade; intros; settle_conversion;
      try discriminate; split; first [reflexivity | congruence].
  - intros Hall. exists (nvValue <$> args).
    split; [apply namedValueToValue_positional, Hall|].
    split; [apply length_fmap|].
    intros i. apply list_lookup_fmap.
Qed.

(** C3, as the code has it at connection scope.  On the fallback branch of
    [wrappedConn.ExecContext] and [wrappedConn.QueryContext] a context that
    is already cancelled stops the call before the native driver is reached.
    The error is the context's own when conversion of the arguments went
    through; conversion comes first, so a named argument is reported
    instead when there is one. *)
Theorem conn_fallback_cancelled op w err :
  conn_fallback op = true ->
  ctx_Err (op_ctx op) = Some err ->
  native_calls (emitted (run op) w) = [] /\
  (Forall unnamed (op_args op) -> fst (run op w) = Some err) /\
  (Exists (fun p => nvName p <> "") (op_args op) ->
   fst (run op w) = Some errNamedParameters).
Proof.
  intros Hfb Hctx. revert Hfb Hctx.
  destruct op; run_facade; intros; try discriminate;
    repeat split; intros; settle_conversion;
    first [reflexivity | congruence].
Qed.

(** C10.  A connection that is neither a [driver.ExecerContext] nor a
    [driver.Execer]: [ExecContext] with positional arguments and a live
    context opens [sql-conn-exec], finds no way to execute, records
    [driver.ErrSkip] on the span, ends it and returns [driver.ErrSkip]; the
    native driver is not called.  [QueryContext] likewise. *)
Theorem ExecContext_without_capability (c : @wrappedConn DB) ctx query
    args w :
  Forall unnamed args ->
  ctx_Err ctx = None ->
  let span := next_span w in
  let trace name :=
    [Start (wc_tracer c) ctx name span;
     SetAttr span "component" (AttrString "database/sql");
     SetAttr span "query" (AttrString query);
     SetAttr span "args" (AttrPrettyNamed args);
     RecordError span (ctxWithSpan ctx span) ErrSkip;
     End span] in
  (ExecerContext (wc_parent c) = None -> Execer (wc_parent c) = None ->
   wrappedConn_ExecContext c ctx query args w
   = (Err ErrSkip,
      {| db := db w; log := log w ++ trace "sql-conn-exec";
         next_span := S span |})) /\
  (QueryerContext (wc_parent c) = None -> Queryer (wc_parent c) = None ->
   wrappedConn_QueryContext c ctx query args w
   = (Err ErrSkip,
      {| db := db w; log := log w ++ trace "sql-conn-query";
         next_span := S span |})).
Proof.
  intros Hall Hctx span trace; subst span trace.
  split; intros Hc Hl; unfold_facades;
    rewrite Hc, Hl, (namedValueToValue_positional args Hall);
    cbn [ctx_Err]; rewrite Hctx; cbn [res_err];
    rewrite <- ?(assoc_L (++)); reflexivity.
Qed.

(** ** Ping and the legacy connection methods *)

(** C7.  [Ping] over a connection that is a [driver.Pinger] opens
    [sql-ping], calls the native [Ping] with the span's context, records the
    native error on the span when there is one, ends the span and returns
    what the native [Ping] returned.  Over a connection that is not, it
    returns nil and leaves the world as it was: no span, no native call. *)
Theorem Ping_traced_iff_pinger (c : @wrappedConn DB) ctx w :
  (forall pinger,
     Pinger (wc_parent c) = Some pinger ->
     let span := next_span w in
     let ctx' := ctxWithSpan ctx span in
     let err := fst (pinger ctx' (db w)) in
     wrappedConn_Ping c ctx w
     = (err,
        {| db := snd (pinger ctx' (db w));
           log := log w
                  ++ [Start (wc_tracer c) ctx "sql-ping" span;
                      SetAttr span "component" (AttrString "database/sql");
                      Native (NPing ctx') err]
                  ++ match err with
                     | Some e => [RecordError span ctx' e]
                     | None => []
                     end
                  ++ [End span];
           next_span := S span |})) /\
  (Pinger (wc_parent c) = None -> wrappedConn_Ping c ctx w = (None, w)).
Proof.
  split.
  - intros pinger Hp. unfold wrappedConn_Ping; rewrite Hp.
    unfold_facades. repeat branch; rewrite <- ?(assoc_L (++)); reflexivity.
  - intros Hp. unfold wrappedConn_Ping; rewrite Hp. reflexivity.
Qed.

(** C8.  The legacy [Exec] and [Query] of the connection facade open no
    span.  Without the [driver.Execer] (resp. [driver.Queryer]) interface
    they return [driver.ErrSkip] and touch nothing.  With it they make the
    one native call, hand back its error as it is, and on success the
    native result (resp. rows) inside a result (resp. rows) facade. *)
Theorem legacy_Exec_Query (c : @wrappedConn DB) query args w :
  trace_events (emitted (wrappedConn_Exec c query args) w) = [] /\
  trace_events (emitted (wrappedConn_Query c query args) w) = [] /\
  (Execer (wc_parent c) = None ->
   wrappedConn_Exec c query args w = (Err ErrSkip, w)) /\
  (Queryer (wc_parent c) = None ->
   wrappedConn_Query c query args w = (Err ErrSkip, w)) /\
  (forall execer,
     Execer (wc_parent c) = Some execer ->
     let native_ret := execer query args (db w) in
     wrappedConn_Exec c query args w
     = (match fst native_ret with
        | Ok res => Ok {| wr_tracer := wc_tracer c; wr_ctx := ctxNil;
                          wr_parent := res |}
        | Err err => Err err
        end,
        {| db := snd native_ret;
           log := log w ++ [Native (NConnExec query args)
                              (res_err (fst native_ret))];
           next_span := next_span w |})) /\
  (forall queryer,
     Queryer (wc_parent c) = Some queryer ->
     let native_ret := queryer query args (db w) in
     wrappedConn_Query c query args w
     = (match fst native_ret with
        | Ok rows => Ok {| wrows_tracer := wc_tracer c; wrows_ctx := ctxNil;
                           wrows_parent := rows |}
        | Err err => Err err
        end,
        {| db := snd native_ret;
           log := log w ++ [Native (NConnQuery query args)
                              (res_err (fst native_ret))];
           next_span := next_span w |})).
Proof.
  repeat split.
  - run_facade; reflexivity.
  - run_facade; reflexivity.
  - intros Hc. unfold wrappedConn_Exec; rewrite Hc. reflexivity.
  - intros Hc. unfold wrappedConn_Query; rewrite Hc. reflexivity.
  - intros execer Hc. unfold wrappedConn_Exec; rewrite Hc.
    unfold_facades. repeat branch; reflexivity.
  - intros queryer Hc. unfold wrappedConn_Query; rewrite Hc.
    unfold_facades. repeat branch; reflexivity.
Qed.

(** ** Transactions *)

(** C9, where the code departs from it.  The claim asks that a
    transaction carries the execution context of its begin whichever method
    made it.  [BeginTx] stores the context of its own call, also on the
    branch where it makes the legacy native [Begin] call.  The legacy
    [Begin] builds the facade without the field: the transaction holds nil,
    and the first thing its [Commit] and [Rollback] do is to call
    [tracer.Start] on nil. *)
Theorem legacy_Begin_leaves_context_nil (c : @wrappedConn DB) w tx :
  fst (wrappedConn_Begin c w) = Ok tx ->
  wt_ctx tx = ctxNil /\
  (forall w',
     head (emitted (wrappedTx_Commit tx) w')
     = Some (Start (wt_tracer tx) ctxNil "sql-tx-commit" (next_span w')) /\
     head (emitted (wrappedTx_Rollback tx) w')
     = Some (Start (wt_tracer tx) ctxNil "sql-tx-rollback"
               (next_span w'))) /\
  (forall ctx opts tx',
     fst (wrappedConn_BeginTx c ctx opts w) = Ok tx' ->
     wt_ctx tx' = ctxWithSpan ctx (next_span w)).
Proof.
  intros Hret.
  assert (Hnil : wt_ctx tx = ctxNil).
  { revert Hret. unfold_facades. repeat branch;
      intros H; inversion H; reflexivity. }
  split; [exact Hnil|]. split.
  - intros w'. destruct tx as [tracer ctx parent]. cbn in Hnil. subst ctx.
    clear Hret. split; run_facade; reflexivity.
  - clear Hret Hnil tx. intros ctx opts tx'. unfold_facades.
    repeat branch; intros H; inversion H; reflexivity.
Qed.

(** ** Errors *)

(** Decide membership in the explicit list of entries an operation left. *)
Ltac read_entries :=
  cbn [native_calls started trace_events In]; repeat split; intros;
  repeat match goal with
         | H : _ \/ _ |- _ => destruct H
         | H : False |- _ => contradiction
         | H : (_, _) = (_, _) |- _ => inversion H; clear H; subst
         | H : Some _ = Some _ |- _ => inversion H; clear H; subst
         | H : RecordError _ _ _ = RecordError _ _ _ |- _ =>
             inversion H; clear H; subst
         | H : _ = _ |- _ => discriminate H
         end;
  try (eexists; solve [repeat first [left; reflexivity | right]]);
  eauto.

(** C5.  An error that a native call returns is the error the operation
    returns.  And when an operation returns an error, every span it opened
    has that very error recorded on it, and no other. *)
Theorem errors_recorded_and_returned op w :
  (forall call err,
     In (call, Some err) (native_calls (emitted (run op) w)) ->
     fst (run op w) = Some err) /\
  (forall err,
     fst (run op w) = Some err ->
     (forall span name,
        In (span, name) (started (emitted (run op) w)) ->
        exists ctx, In (RecordError span ctx err) (emitted (run op) w)) /\
     (forall span ctx err',
        In (RecordError span ctx err') (emitted (run op) w) ->
        err' = err)).
Proof.
  destruct op; run_facade; read_entries.
Qed.

(** * Further properties of the facades *)

(** ** Spans *)

(** Spans are closed in the reverse order of their opening, whatever the
    operation returns: every span an operation starts is ended by it,
    once, and an inner span before the one around it. *)
Theorem spans_closed_in_reverse_order op w :
  ended (emitted (run op) w) = rev (fst <$> started (emitted (run op) w)).
Proof.
  destruct op; run_facade; reflexivity.
Qed.

(** Every span carries one of the thirteen names of the package and has
    the attribute [component] set to ["database/sql"], on every branch and
    also when the operation fails. *)
Theorem spans_named_and_tagged op w span name :
  In (span, name) (started (emitted (run op) w)) ->
  In name span_names /\
  In (SetAttr span "component" (AttrString "database/sql"))
     (emitted (run op) w).
Proof.
  destruct op; run_facade; cbn [started In]; intros Hin;
    repeat match goal with
           | H : _ \/ _ |- _ => destruct H
           | H : False |- _ => contradiction
           | H : (_, _) = (_, _) |- _ => inversion H; clear H; subst
           end;
    (split; [unfold span_names|]; cbn [In];
     solve [repeat first [left; reflexivity | right]]).
Qed.

(** The methods that delegate without tracing leave no trace entry: the
    driver's [Open], the connection's [Prepare], [Close], [Begin], [Exec],
    [Query], the statement's [NumInput], the cursor's [Columns] and
    [Close], and [Ping] over a connection that cannot ping. *)
Theorem untraced_methods_leave_no_trace op w :
  span_name op = None ->
  trace_events (emitted (run op) w) = [].
Proof.
  destruct op; run_facade; intros; try discriminate; reflexivity.
Qed.

(** An operation that returns without error has recorded no error on any
    span. *)
Theorem success_records_no_error op w span ctx err :
  fst (run op w) = None ->
  ~ In (RecordError span ctx err) (emitted (run op) w).
Proof.
  destruct op; run_facade; cbn [In]; intros Hret Hin;
    try discriminate Hret;
    repeat match goal with
           | H : _ \/ _ |- _ => destruct H
           | H : False |- _ => contradiction
           | H : _ = _ |- _ => discriminate H
           end.
Qed.

(** ** Native calls *)

(** An operation calls the native driver at most once: nothing is
    retried, on success or on failure. *)
Theorem at_most_one_native_call op w :
  length (native_calls (emitted (run op) w)) <= 1.
Proof.
  destruct op; run_facade; cbn [native_calls length]; lia.
Qed.

(** ** Argument conversion, the other way round *)

(** The conversion succeeds only on positional arguments, and then with
    the list of their values; it fails only with the named-parameter error,
    and only when an argument has a name. *)
Theorem namedValueToValue_outcomes (args : list NamedValue) :
  (forall dargs,
     namedValueToValue args = Ok dargs ->
     Forall unnamed args /\ dargs = nvValue <$> args) /\
  (forall err,
     namedValueToValue args = Err err ->
     err = errNamedParameters /\
     Exists (fun p => nvName p <> "") args).
Proof.
  destruct (Forall_Exists_dec unnamed (fun p => nvName p <> "")
              (fun p => decide (nvName p = "")) args) as [Hall | Hex].
  - rewrite (namedValueToValue_positional args Hall).
    split; intros ? H; inversion H; auto.
  - rewrite (namedValueToValue_named args Hex).
    split; intros ? H; inversion H; auto.
Qed.

(** ** Dispatch on the optional interfaces *)

Ltac split_all := repeat match goal with |- _ /\ _ => split end.

(** When the wrapped connection has the context-aware interface,
    [ExecContext] and [QueryContext] hand the call over as it came: the
    query and the argument list unchanged, named arguments included, and
    the context the tracer returned for the caller's.  There is no check of
    the context and no conversion on this branch; the native answer decides
    error and store. *)
Theorem conn_context_aware_calls_delegate (c : @wrappedConn DB) ctx query
    args w :
  let ctx' := ctxWithSpan ctx (next_span w) in
  (forall f,
     ExecerContext (wc_parent c) = Some f ->
     native_calls (emitted (wrappedConn_ExecContext c ctx query args) w)
     = [(NConnExecContext ctx' query args,
         res_err (fst (f ctx' query args (db w))))] /\
     res_err (fst (wrappedConn_ExecContext c ctx query args w))
     = res_err (fst (f ctx' query args (db w))) /\
     db (snd (wrappedConn_ExecContext c ctx query args w))
     = snd (f ctx' query args (db w))) /\
  (forall f,
     QueryerContext (wc_parent c) = Some f ->
     native_calls (emitted (wrappedConn_QueryContext c ctx query args) w)
     = [(NConnQueryContext ctx' query args,
         res_err (fst (f ctx' query args (db w))))] /\
     res_err (fst (wrappedConn_QueryContext c ctx query args w))
     = res_err (fst (f ctx' query args (db w))) /\
     db (snd (wrappedConn_QueryContext c ctx query args w))
     = snd (f ctx' query args (db w))).
Proof.
  intros ctx'; subst ctx'. split; intros f Hf; unfold emitted.
  - unfold wrappedConn_ExecContext; rewrite Hf.
    unfold_facades; repeat branch; read_emitted; split_all; reflexivity.
  - unfold wrappedConn_QueryContext; rewrite Hf.
    unfold_facades; repeat branch; read_emitted; split_all; reflexivity.
Qed.

(** At statement scope the context-aware call goes out with the context
    derived from the one the statement holds; the context given to
    [ExecContext] or [QueryContext] does not reach the native statement. *)
Theorem stmt_context_aware_calls_delegate (s : @wrappedStmt DB) ctx args w :
  let ctx' := ctxWithSpan (ws_ctx s) (next_span w) in
  (forall f,
     StmtExecContext (ws_parent s) = Some f ->
     native_calls (emitted (wrappedStmt_ExecContext s ctx args) w)
     = [(NStmtExecContext ctx' args, res_err (fst (f ctx' args (db w))))] /\
     res_err (fst (wrappedStmt_ExecContext s ctx args w))
     = res_err (fst (f ctx' args (db w))) /\
     db (snd (wrappedStmt_ExecContext s ctx args w))
     = snd (f ctx' args (db w))) /\
  (forall f,
     StmtQueryContext (ws_parent s) = Some f ->
     native_calls (emitted (wrappedStmt_QueryContext s ctx args) w)
     = [(NStmtQueryContext ctx' args, res_err (fst (f ctx' args (db w))))] /\
     res_err (fst (wrappedStmt_QueryContext s ctx args w))
     = res_err (fst (f ctx' args (db w))) /\
     db (snd (wrappedStmt_QueryContext s ctx args w))
     = snd (f ctx' args (db w))).
Proof.
  intros ctx'; subst ctx'. split; intros f Hf; unfold emitted.
  - unfold wrappedStmt_ExecContext; rewrite Hf.
    unfold_facades; repeat branch; read_emitted; split_all; reflexivity.
  - unfold wrappedStmt_QueryContext; rewrite Hf.
    unfold_facades; repeat branch; read_emitted; split_all; reflexivity.
Qed.

(** On the fallback branch, with positional arguments and a context that
    is not done, a context-aware call is the legacy call on the values of
    the arguments: same result, same store, same native call. *)
Theorem fallback_is_the_legacy_call (c : @wrappedConn DB)
    (s : @wrappedStmt DB) ctx query args w :
  Forall unnamed args ->
  let dargs := nvValue <$> args in
  (ExecerContext (wc_parent c) = None -> ctx_Err ctx = None ->
   fst (wrappedConn_ExecContext c ctx query args w)
   = fst (wrappedConn_Exec c query dargs w) /\
   db (snd (wrappedConn_ExecContext c ctx query args w))
   = db (snd (wrappedConn_Exec c query dargs w)) /\
   native_calls (emitted (wrappedConn_ExecContext c ctx query args) w)
   = native_calls (emitted (wrappedConn_Exec c query dargs) w)) /\
  (QueryerContext (wc_parent c) = None -> ctx_Err ctx = None ->
   fst (wrappedConn_QueryContext c ctx query args w)
   = fst (wrappedConn_Query c query dargs w) /\
   db (snd (wrappedConn_QueryContext c ctx query args w))
   = db (snd (wrappedConn_Query c query dargs w)) /\
   native_calls (emitted (wrappedConn_QueryContext c ctx query args) w)
   = native_calls (emitted (wrappedConn_Query c query dargs) w)) /\
  (StmtExecContext (ws_parent s) = None -> ctx_Err (ws_ctx s) = None ->
   fst (wrappedStmt_ExecContext s ctx args w)
   = fst (wrappedStmt_Exec s dargs w) /\
   db (snd (wrappedStmt_ExecContext s ctx args w))
   = db (snd (wrappedStmt_Exec s dargs w)) /\
   native_calls (emitted (wrappedStmt_ExecContext s ctx args) w)
   = native_calls (emitted (wrappedStmt_Exec s dargs) w)) /\
  (StmtQueryContext (ws_parent s) = None -> ctx_Err (ws_ctx s) = None ->
   fst (wrappedStmt_QueryContext s ctx args w)
   = fst (wrappedStmt_Query s dargs w) /\
   db (snd (wrappedStmt_QueryContext s ctx args w))
   = db (snd (wrappedStmt_Query s dargs w)) /\
   native_calls (emitted (wrappedStmt_QueryContext s ctx args) w)
   = native_calls (emitted (wrappedStmt_Query s dargs) w)).
Proof.
  intros Hall dargs; subst dargs.
  pose proof (namedValueToValue_positional args Hall) as Hconv.
  split_all; intros Hcap Hctx; unfold emitted; unfold_facades;
    cbn [ctx_Err]; rewrite Hcap, Hconv, Hctx;
    repeat branch; read_emitted; split_all; reflexivity.
Qed.

(** [BeginTx] and [PrepareContext] pass the tracer's context and their
    argument to the context-aware native method when there is one.  When
    there is none they make the legacy call: the transaction options are
    dropped, and the context is not looked at, done or not. *)
Theorem BeginTx_PrepareContext_dispatch (c : @wrappedConn DB) ctx opts
    query w :
  let ctx' := ctxWithSpan ctx (next_span w) in
  (forall f,
     ConnBeginTx (wc_parent c) = Some f ->
     native_calls (emitted (wrappedConn_BeginTx c ctx opts) w)
     = [(NBeginTx ctx' opts, res_err (fst (f ctx' opts (db w))))]) /\
  (ConnBeginTx (wc_parent c) = None ->
   native_calls (emitted (wrappedConn_BeginTx c ctx opts) w)
   = [(NBegin, res_err (fst (Begin (wc_parent c) (db w))))] /\
   res_err (fst (wrappedConn_BeginTx c ctx opts w))
   = res_err (fst (Begin (wc_parent c) (db w)))) /\
  (forall f,
     ConnPrepareContext (wc_parent c) = Some f ->
     native_calls (emitted (wrappedConn_PrepareContext c ctx query) w)
     = [(NPrepareContext ctx' query, res_err (fst (f ctx' query (db w))))]) /\
  (ConnPrepareContext (wc_parent c) = None ->
   native_calls (emitted (wrappedConn_PrepareContext c ctx query) w)
   = [(NPrepare query, res_err (fst (Prepare (wc_parent c) query (db w))))] /\
   res_err (fst (wrappedConn_PrepareContext c ctx query w))
   = res_err (fst (Prepare (wc_parent c) query (db w)))).
Proof.
  intros ctx'; subst ctx'. split_all.
  - intros f Hf. unfold emitted, wrappedConn_BeginTx; rewrite Hf.
    unfold_facades; repeat branch; read_emitted; reflexivity.
  - intros Hf. unfold emitted, wrappedConn_BeginTx; rewrite Hf.
    unfold_facades; repeat branch; read_emitted; split_all; reflexivity.
  - intros f Hf. unfold emitted, wrappedConn_PrepareContext; rewrite Hf.
    unfold_facades; repeat branch; read_emitted; reflexivity.
  - intros Hf. unfold emitted, wrappedConn_PrepareContext; rewrite Hf.
    unfold_facades; repeat branch; read_emitted; split_all; reflexivity.
Qed.

(** ** The facades an operation returns *)

Ltac returned_facade :=
  let x := fresh "x" in let H := fresh "H" in
  intros x; unfold_facades; repeat branch;
  intros H; inversion H; reflexivity.

(** Every facade that a method returns holds the tracer of the facade the
    method was called on: one tracer serves the driver facade and all that
    descends from it. *)
Theorem returned_facades_share_the_tracer (d : @wrappedDriver DB)
    (c : @wrappedConn DB) (s : @wrappedStmt DB) name query ctx opts
    args nargs w :
  (forall x, fst (wrappedDriver_Open d name w) = Ok x ->
             wc_tracer x = wd_tracer d) /\
  (forall x, fst (wrappedConn_Prepare c query w) = Ok x ->
             ws_tracer x = wc_tracer c) /\
  (forall x, fst (wrappedConn_PrepareContext c ctx query w) = Ok x ->
             ws_tracer x = wc_tracer c) /\
  (forall x, fst (wrappedConn_Begin c w) = Ok x ->
             wt_tracer x = wc_tracer c) /\
  (forall x, fst (wrappedConn_BeginTx c ctx opts w) = Ok x ->
             wt_tracer x = wc_tracer c) /\
  (forall x, fst (wrappedConn_Exec c query args w) = Ok x ->
             wr_tracer x = wc_tracer c) /\
  (forall x, fst (wrappedConn_ExecContext c ctx query nargs w) = Ok x ->
             wr_tracer x = wc_tracer c) /\
  (forall x, fst (wrappedConn_Query c query args w) = Ok x ->
             wrows_tracer x = wc_tracer c) /\
  (forall x, fst (wrappedConn_QueryContext c ctx query nargs w) = Ok x ->
             wrows_tracer x = wc_tracer c) /\
  (forall x, fst (wrappedStmt_Exec s args w) = Ok x ->
             wr_tracer x = ws_tracer s) /\
  (forall x, fst (wrappedStmt_ExecContext s ctx nargs w) = Ok x ->
             wr_tracer x = ws_tracer s) /\
  (forall x, fst (wrappedStmt_Query s args w) = Ok x ->
             wrows_tracer x = ws_tracer s) /\
  (forall x, fst (wrappedStmt_QueryContext s ctx nargs w) = Ok x ->
             wrows_tracer x = ws_tracer s).
Proof.
  split_all; returned_facade.
Qed.

(** The context a returned result or row cursor holds, from which its own
    spans will start.  After a context-aware native call it is the context
    of the span around that call.  After a legacy call at connection scope
    there is none (nil), also when [ExecContext] or [QueryContext] got there
    by falling back.  At statement scope the legacy methods and the
    fallback hand down the statement's own context. *)
Theorem context_of_returned_results (c : @wrappedConn DB)
    (s : @wrappedStmt DB) query ctx args nargs w :
  (forall x, fst (wrappedConn_Exec c query args w) = Ok x ->
             wr_ctx x = ctxNil) /\
  (forall x, fst (wrappedConn_Query c query args w) = Ok x ->
             wrows_ctx x = ctxNil) /\
  (forall x, fst (wrappedConn_ExecContext c ctx query nargs w) = Ok x ->
             wr_ctx x = match ExecerContext (wc_parent c) with
                        | Some _ => ctxWithSpan ctx (next_span w)
                        | None => ctxNil
                        end) /\
  (forall x, fst (wrappedConn_QueryContext c ctx query nargs w) = Ok x ->
             wrows_ctx x = match QueryerContext (wc_parent c) with
                           | Some _ => ctxWithSpan ctx (next_span w)
                           | None => ctxNil
                           end) /\
  (forall x, fst (wrappedStmt_Exec s args w) = Ok x ->
             wr_ctx x = ws_ctx s) /\
  (forall x, fst (wrappedStmt_Query s args w) = Ok x ->
             wrows_ctx x = ws_ctx s) /\
  (forall x, fst (wrappedStmt_ExecContext s ctx nargs w) = Ok x ->
             wr_ctx x = match StmtExecContext (ws_parent s) with
                        | Some _ => ctxWithSpan (ws_ctx s) (next_span w)
                        | None => ws_ctx s
                        end) /\
  (forall x, fst (wrappedStmt_QueryContext s ctx nargs w) = Ok x ->
             wrows_ctx x = match StmtQueryContext (ws_parent s) with
                           | Some _ => ctxWithSpan (ws_ctx s) (next_span w)
                           | None => ws_ctx s
                           end).
Proof.
  split_all; returned_facade.
Qed.

(** The context a prepared statement holds: the context of the
    [sql-prepare] span after a context-aware prepare, none after the legacy
    [Prepare], also when [PrepareContext] fell back to it. *)
Theorem context_of_prepared_statements (c : @wrappedConn DB) query ctx w :
  (forall x, fst (wrappedConn_Prepare c query w) = Ok x ->
             ws_ctx x = ctxNil) /\
  (forall x, fst (wrappedConn_PrepareContext c ctx query w) = Ok x ->
             ws_ctx x = match ConnPrepareContext (wc_parent c) with
                        | Some _ => ctxWithSpan ctx (next_span w)
                        | None => ctxNil
                        end).
Proof.
  split_all; returned_facade.
Qed.

(** ** Plain delegation *)

Ltac delegated :=
  unfold_facades; repeat branch; split_all; reflexivity.

(** What the native object answers is what the caller gets, value and
    error, and the store is the one the native call left: commit, roll
    back, the closes, the number of placeholders, the accessors of a
    result, the columns and the next row of a cursor. *)
Theorem accessors_are_transparent (c : @wrappedConn DB) (t : @wrappedTx DB)
    (s : @wrappedStmt DB) (r : @wrappedResult DB) (rows : @wrappedRows DB)
    dest w :
  (fst (wrappedConn_Close c w) = fst (Conn_Close (wc_parent c) (db w)) /\
   db (snd (wrappedConn_Close c w)) = snd (Conn_Close (wc_parent c) (db w))) /\
  (fst (wrappedTx_Commit t w) = fst (Commit (wt_parent t) (db w)) /\
   db (snd (wrappedTx_Commit t w)) = snd (Commit (wt_parent t) (db w))) /\
  (fst (wrappedTx_Rollback t w) = fst (Rollback (wt_parent t) (db w)) /\
   db (snd (wrappedTx_Rollback t w))
   = snd (Rollback (wt_parent t) (db w))) /\
  (fst (wrappedStmt_Close s w) = fst (Stmt_Close (ws_parent s) (db w)) /\
   db (snd (wrappedStmt_Close s w))
   = snd (Stmt_Close (ws_parent s) (db w))) /\
  (fst (wrappedStmt_NumInput s w) = fst (NumInput (ws_parent s) (db w)) /\
   db (snd (wrappedStmt_NumInput s w))
   = snd (NumInput (ws_parent s) (db w))) /\
  (fst (wrappedResult_LastInsertId r w)
   = fst (LastInsertId (wr_parent r) (db w)) /\
   db (snd (wrappedResult_LastInsertId r w))
   = snd (LastInsertId (wr_parent r) (db w))) /\
  (fst (wrappedResult_RowsAffected r w)
   = fst (RowsAffected (wr_parent r) (db w)) /\
   db (snd (wrappedResult_RowsAffected r w))
   = snd (RowsAffected (wr_parent r) (db w))) /\
  (fst (wrappedRows_Columns rows w)
   = fst (Columns (wrows_parent rows) (db w)) /\
   db (snd (wrappedRows_Columns rows w))
   = snd (Columns (wrows_parent rows) (db w))) /\
  (fst (wrappedRows_Close rows w)
   = fst (Rows_Close (wrows_parent rows) (db w)) /\
   db (snd (wrappedRows_Close rows w))
   = snd (Rows_Close (wrows_parent rows) (db w))) /\
  (fst (wrappedRows_Next rows dest w)
   = fst (Next (wrows_parent rows) dest (db w)) /\
   db (snd (wrappedRows_Next rows dest w))
   = snd (Next (wrows_parent rows) dest (db w))).
Proof.
  split_all; delegated.
Qed.

(** ** Attributes *)

(** The spans of the context-aware connection methods carry the query
    text of the call, and for [ExecContext] and [QueryContext] its argument
    list, on every branch: the attributes are set before the method looks
    at the wrapped connection. *)
Theorem conn_spans_carry_query_and_args (c : @wrappedConn DB) ctx query
    args w :
  let span := next_span w in
  In (SetAttr span "query" (AttrString query))
     (emitted (wrappedConn_PrepareContext c ctx query) w) /\
  (In (SetAttr span "query" (AttrString query))
      (emitted (wrappedConn_ExecContext c ctx query args) w) /\
   In (SetAttr span "args" (AttrPrettyNamed args))
      (emitted (wrappedConn_ExecContext c ctx query args) w)) /\
  (In (SetAttr span "query" (AttrString query))
      (emitted (wrappedConn_QueryContext c ctx query args) w) /\
   In (SetAttr span "args" (AttrPrettyNamed args))
      (emitted (wrappedConn_QueryContext c ctx query args) w)).
Proof.
  intros span; subst span. split_all; unfold emitted;
    unfold_facades; repeat branch; read_emitted; cbn [In];
    solve [repeat first [left; reflexivity | right]].
Qed.

(** ** More round trips *)

Ltac unfold_trips :=
  cbv [cursor_trip tx_trip WrapDriver
       native_CursorAPI wrapped_CursorAPI native_TxAPI wrapped_TxAPI
       q_NumInput q_Query q_Columns q_Next q_RowsClose q_StmtClose
       t_Open t_Begin t_Commit t_Rollback t_ConnClose].

(** A query on a statement facade that holds a context, and the same
    query directly on the native statement it wraps (number of
    placeholders, query, columns, two rows, the two closes): the native
    statement and cursor get the same calls in the same order, the store
    ends the same, the caller sees the same values and errors, the
    end-of-rows error included, and no span of the sequence is started
    from a nil context. *)
Theorem cursor_trip_refines_native (s : @wrappedStmt DB) args dest w :
  ws_ctx s <> ctxNil ->
  fst (cursor_trip s args dest w)
  = fst (cursor_trip (ws_parent s) args dest w) /\
  db (snd (cursor_trip s args dest w))
  = db (snd (cursor_trip (ws_parent s) args dest w)) /\
  native_calls (emitted (cursor_trip s args dest) w)
  = native_calls (emitted (cursor_trip (ws_parent s) args dest) w) /\
  nil_starts (emitted (cursor_trip s args dest) w) = [].
Proof.
  destruct s as [tracer ctx query parent]; cbn [ws_ctx ws_parent].
  intros Hctx. destruct ctx; [contradiction| |];
    unfold emitted; unfold_trips;
    unfold_facades; repeat branch; read_emitted;
    split_all; reflexivity.
Qed.


(** ** Registration *)

Lemma traced_name_injective (s1 s2 : string) :
  ("traced-" ++ s1)%string = ("traced-" ++ s2)%string -> s1 = s2.
Proof. cbv [String.append]. congruence. Qed.

(** [WrapDriver] registers the facade once.  A registration that goes
    through was made under ["traced-"] followed by the suffix, and the
    registry then holds under that name the facade of the given driver and
    tracer.  Registering the same suffix again fails, whatever the driver
    and the tracer.  A different suffix whose name was free stays
    registrable and leaves the first entry in place. *)
Theorem WrapDriver_registers_once (s1 : string) (d1 : @Driver DB) t1
    drivers name drivers' :
  WrapDriver_Register s1 d1 t1 drivers = Some (name, drivers') ->
  name = ("traced-" ++ s1)%string /\
  drivers' !! name = Some {| wd_tracer := t1; wd_parent := d1 |} /\
  (forall d2 t2, WrapDriver_Register s1 d2 t2 drivers' = None) /\
  (forall s2 d2 t2,
     s2 <> s1 ->
     drivers !! ("traced-" ++ s2)%string = None ->
     exists drivers'',
       WrapDriver_Register s2 d2 t2 drivers'
       = Some (("traced-" ++ s2)%string, drivers'') /\
       drivers'' !! name = Some {| wd_tracer := t1; wd_parent := d1 |}).
Proof.
  unfold WrapDriver_Register, sql_Register, WrapDriver.
  destruct (drivers !! ("traced-" ++ s1)%string) eqn:Hfree;
    [discriminate|].
  intros H; inversion H; subst; clear H.
  split_all.
  - reflexivity.
  - apply lookup_insert_eq.
  - intros d2 t2. rewrite lookup_insert_eq. reflexivity.
  - intros s2 d2 t2 Hne Hfree2.
    assert (Hnames : ("traced-" ++ s1)%string <> ("traced-" ++ s2)%string)
      by (intros E; apply Hne; symmetry; exact (traced_name_injective _ _ E)).
    rewrite lookup_insert_ne by exact Hnames. rewrite Hfree2.
    eexists. split; [reflexivity|].
    rewrite lookup_insert_ne by (intros E; apply Hnames; symmetry; exact E).
    apply lookup_insert_eq.
Qed.

(** ** The span around the operation *)

(** A traced operation begins by starting its span and ends by ending it:
    whatever else it leaves in the log, attributes, the native call, a
    recorded error, an inner span, lies between the two. *)
Theorem own_span_brackets_the_operation op w name :
  span_name op = Some name ->
  (exists tracer parent,
     head (emitted (run op) w)
     = Some (Start tracer parent name (next_span w))) /\
  last (emitted (run op) w) = Some (End (next_span w)).
Proof.
  destruct op; run_facade; intros Hname; try discriminate Hname;
    inversion Hname; subst; (split; [do 2 eexists|]; reflexivity).
Qed.

(** ** Cancellation at statement scope *)

(** At statement scope the fallback branch tests the context the statement
    holds: when that one is done and the arguments are positional, the
    call returns its error and the native statement is not called, whatever
    context the caller passed. *)
Theorem stmt_fallback_checks_the_stored_context (s : @wrappedStmt DB) ctx
    args w err :
  Forall unnamed args ->
  ctx_Err (ws_ctx s) = Some err ->
  (StmtExecContext (ws_parent s) = None ->
   res_err (fst (wrappedStmt_ExecContext s ctx args w)) = Some err /\
   native_calls (emitted (wrappedStmt_ExecContext s ctx args) w) = []) /\
  (StmtQueryContext (ws_parent s) = None ->
   res_err (fst (wrappedStmt_QueryContext s ctx args w)) = Some err /\
   native_calls (emitted (wrappedStmt_QueryContext s ctx args) w) = []).
Proof.
  intros Hall Hctx.
  pose proof (namedValueToValue_positional args Hall) as Hconv.
  split_all; intros Hcap; unfold emitted; unfold_facades;
    cbn [ctx_Err]; rewrite Hcap, Hconv, Hctx;
    repeat branch; read_emitted; split_all; reflexivity.
Qed.

End Properties.

(** ** Instances on the test doubles *)

Lemma stmt_fallback_starts_two_spans_witness :
  let op := OpStmtExecContext stmtFromPrepareContext live
              [positional (VInt 7)] in
  stmt_fallback op = true /\
  fst (run op worldAfterPrepareContext) = None /\
  exists name,
    span_name op = Some name /\
    started (emitted (run op) worldAfterPrepareContext)
    = [(1, name); (2, name)] /\
    count_starts (emitted (run op) worldAfterPrepareContext) = 2 /\
    count_ends (emitted (run op) worldAfterPrepareContext) = 2.
Proof.
  intros op.
  split; [reflexivity|]. split; [reflexivity|].
  apply (stmt_fallback_starts_two_spans op worldAfterPrepareContext);
    reflexivity.
Defined.

(** [stmtFromPrepareContext] and [worldAfterPrepareContext] are what the
    code produces. *)
Example PrepareContext_on_mock :
  wrappedConn_PrepareContext
    {| wc_tracer := tracer0; wc_parent := mockConnCtx |} live "INSERT"
    mockWorld
  = (Ok stmtFromPrepareContext, worldAfterPrepareContext).
Proof. reflexivity. Qed.

Lemma PrepareContext_drops_query_witness :
  let c := {| wc_tracer := tracer0; wc_parent := mockConnCtx |} in
  ConnPrepareContext (wc_parent c)
  = Some (fun ctx query d => (Ok (mockStmt query), d)) /\
  fst (wrappedConn_PrepareContext c live "INSERT" mockWorld)
  = Ok stmtFromPrepareContext /\
  ws_query stmtFromPrepareContext = "" /\
  forall args w',
    In (SetAttr (next_span w') "query" (AttrString ""))
       (emitted (run (OpStmtExec stmtFromPrepareContext args)) w').
Proof.
  intros c.
  split; [reflexivity|]. split; [reflexivity|].
  apply (PrepareContext_drops_query c live "INSERT" mockWorld
           stmtFromPrepareContext
           (fun ctx query d => (Ok (mockStmt query), d)));
    reflexivity.
Defined.

(** *** Conversion and cancellation *)

Lemma named_parameters_rejected_witness :
  let args := [positional (VInt 1); named "id" (VInt 2)] in
  let op := OpStmtExecContext stmtFromPrepare live args in
  let three :=
    [positional (VInt 1); positional (VString "a"); positional (VBool true)] in
  (Exists (fun p => nvName p <> "") args /\
   fallback op = true /\
   fst (run op mockWorld) = Some errNamedParameters /\
   native_calls (emitted (run op) mockWorld) = []) /\
  (Forall unnamed three /\
   exists dargs,
     namedValueToValue three = Ok dargs /\
     length dargs = length three /\
     forall i, dargs !! i = nvValue <$> (three !! i)).
Proof.
  intros args op three.
  assert (Hex : Exists (fun p => nvName p <> "") args)
    by (apply Exists_cons_tl, Exists_cons_hd; discriminate).
  assert (Hall : Forall unnamed three) by (repeat constructor).
  split.
  - split; [exact Hex|]. split; [reflexivity|].
    apply (proj2 (proj1 (named_parameters_rejected args) Hex) op mockWorld);
      reflexivity.
  - split; [exact Hall|].
    apply (proj2 (named_parameters_rejected (DB:=mockDB) three) Hall).
Defined.

(** C3 does not hold as worded.  Worded, it reads: on each of the four
    fallback calls a cancelled context makes the call return the context's
    error without a native call.  With a cancelled context and a named
    argument, [wrappedConn.ExecContext] on the fallback branch returns the
    named-parameter error, not the context's. *)
Lemma cancelled_context_not_always_reported :
  ~ (forall (op : @Op mockDB) (w : @World mockDB) (err : error),
       fallback op = true ->
       ctx_Err (op_ctx op) = Some err ->
       fst (run op w) = Some err /\
       native_calls (emitted (run op) w) = []).
Proof.
  intros H.
  destruct (H (OpConnExecContext
                 {| wc_tracer := tracer0; wc_parent := mockConnLegacy |}
                 cancelled "INSERT" [named "id" (VInt 1)])
              mockWorld ErrCanceled eq_refl eq_refl) as [Hret _].
  vm_compute in Hret. discriminate Hret.
Qed.

Lemma conn_fallback_cancelled_witness :
  let op := OpConnExecContext
              {| wc_tracer := tracer0; wc_parent := mockConnLegacy |}
              cancelled "INSERT" [positional (VInt 1)] in
  conn_fallback op = true /\
  ctx_Err (op_ctx op) = Some ErrCanceled /\
  Forall unnamed (op_args op) /\
  fst (run op mockWorld) = Some ErrCanceled /\
  native_calls (emitted (run op) mockWorld) = [].
Proof.
  intros op.
  assert (Hall : Forall unnamed (op_args op)) by (repeat constructor).
  destruct (conn_fallback_cancelled op mockWorld ErrCanceled eq_refl eq_refl)
    as [Hnat [Hpos _]].
  split; [reflexivity|]. split; [reflexivity|]. split; [exact Hall|].
  split; [exact (Hpos Hall) | exact Hnat].
Defined.

(** At statement scope the [Done] check reads the context the statement
    was prepared with: the context handed to [ExecContext] is overwritten
    before it is looked at.  Here it is cancelled, the stored one is not,
    and the native [Exec] runs. *)
Example stmt_ExecContext_checks_stored_context :
  let op := OpStmtExecContext stmtFromPrepareContext cancelled
              [positional (VInt 7)] in
  fst (run op worldAfterPrepareContext) = None /\
  native_calls (emitted (run op) worldAfterPrepareContext)
  = [(NStmtExec [VInt 7], None)] /\
  db (snd (run op worldAfterPrepareContext)) = [("INSERT", [VInt 7])].
Proof. repeat split. Qed.

Lemma ExecContext_without_capability_witness :
  let c := {| wc_tracer := tracer0; wc_parent := mockConn |} in
  let args := [positional (VInt 1)] in
  Forall unnamed args /\
  ctx_Err live = None /\
  ExecerContext (wc_parent c) = None /\ Execer (wc_parent c) = None /\
  wrappedConn_ExecContext c live "INSERT" args mockWorld
  = (Err ErrSkip,
     {| db := [];
        log := [Start tracer0 live "sql-conn-exec" 0;
                SetAttr 0 "component" (AttrString "database/sql");
                SetAttr 0 "query" (AttrString "INSERT");
                SetAttr 0 "args" (AttrPrettyNamed args);
                RecordError 0 (ctxWithSpan live 0) ErrSkip;
                End 0];
        next_span := 1 |}).
Proof.
  intros c args.
  assert (Hall : Forall unnamed args) by (repeat constructor).
  split; [exact Hall|]. do 3 (split; [reflexivity|]).
  apply (proj1 (ExecContext_without_capability c live "INSERT" args
                  mockWorld Hall eq_refl));
    reflexivity.
Defined.

(** *** Ping, legacy methods, transactions *)

Lemma Ping_traced_iff_pinger_witness :
  let pinger := fun (_ : Context) (d : mockDB) =>
                  (Some (ErrDriver "connection lost"), d) in
  (Pinger (wc_parent {| wc_tracer := tracer0; wc_parent := mockConnCtx |})
   = Some pinger /\
   wrappedConn_Ping {| wc_tracer := tracer0; wc_parent := mockConnCtx |}
     live mockWorld
   = (Some (ErrDriver "connection lost"),
      {| db := [];
         log := [Start tracer0 live "sql-ping" 0;
                 SetAttr 0 "component" (AttrString "database/sql");
                 Native (NPing (ctxWithSpan live 0))
                   (Some (ErrDriver "connection lost"));
                 RecordError 0 (ctxWithSpan live 0)
                   (ErrDriver "connection lost");
                 End 0];
         next_span := 1 |})) /\
  (Pinger (wc_parent {| wc_tracer := tracer0; wc_parent := mockConn |})
   = None /\
   wrappedConn_Ping {| wc_tracer := tracer0; wc_parent := mockConn |}
     live mockWorld
   = (None, mockWorld)).
Proof.
  intros pinger. split.
  - split; [reflexivity|].
    apply (proj1 (Ping_traced_iff_pinger
                    {| wc_tracer := tracer0; wc_parent := mockConnCtx |}
                    live mockWorld) pinger).
    reflexivity.
  - split; [reflexivity|].
    apply (proj2 (Ping_traced_iff_pinger
                    {| wc_tracer := tracer0; wc_parent := mockConn |}
                    live mockWorld)).
    reflexivity.
Defined.

Lemma legacy_Exec_Query_witness :
  let c := {| wc_tracer := tracer0; wc_parent := mockConnLegacy |} in
  let bare := {| wc_tracer := tracer0; wc_parent := mockConn |} in
  (Execer (wc_parent bare) = None /\
   wrappedConn_Exec bare "INSERT" [VInt 1] mockWorld
   = (Err ErrSkip, mockWorld)) /\
  (Queryer (wc_parent bare) = None /\
   wrappedConn_Query bare "SELECT 1" [] mockWorld
   = (Err ErrSkip, mockWorld)) /\
  (Execer (wc_parent c) = Some mock_exec /\
   wrappedConn_Exec c "INSERT" [VInt 1] mockWorld
   = (Ok {| wr_tracer := tracer0; wr_ctx := ctxNil;
            wr_parent := mockResult |},
      {| db := [("INSERT", [VInt 1])];
         log := [Native (NConnExec "INSERT" [VInt 1]) None];
         next_span := 0 |})).
Proof.
  intros c bare.
  pose proof (legacy_Exec_Query bare "INSERT" [VInt 1] mockWorld)
    as [_ [_ [Hskip _]]].
  pose proof (legacy_Exec_Query bare "SELECT 1" [] mockWorld)
    as [_ [_ [_ [Hqskip _]]]].
  pose proof (legacy_Exec_Query c "INSERT" [VInt 1] mockWorld)
    as [_ [_ [_ [_ [Hexec _]]]]].
  split; [split; [reflexivity | exact (Hskip eq_refl)]|].
  split; [split; [reflexivity | exact (Hqskip eq_refl)]|].
  split; [reflexivity | exact (Hexec mock_exec eq_refl)].
Defined.

Lemma legacy_Begin_leaves_context_nil_witness :
  let c := {| wc_tracer := tracer0; wc_parent := mockConnCtx |} in
  let legacy := {| wt_tracer := tracer0; wt_ctx := ctxNil;
                   wt_parent := mockTx |} in
  let tx := {| wt_tracer := tracer0; wt_ctx := ctxWithSpan live 0;
               wt_parent := mockTx |} in
  let opts := {| Isolation := 0; ReadOnly := false |} in
  fst (wrappedConn_Begin c mockWorld) = Ok legacy /\
  wt_ctx legacy = ctxNil /\
  head (emitted (wrappedTx_Commit legacy) mockWorld)
  = Some (Start tracer0 ctxNil "sql-tx-commit" 0) /\
  (fst (wrappedConn_BeginTx c live opts mockWorld) = Ok tx /\
   wt_ctx tx = ctxWithSpan live 0).
Proof.
  intros c legacy tx opts.
  pose proof (legacy_Begin_leaves_context_nil c mockWorld legacy eq_refl)
    as [Hnil [Hstart Hsibling]].
  split; [reflexivity|]. split; [exact Hnil|].
  split; [exact (proj1 (Hstart mockWorld))|].
  split; [reflexivity | exact (Hsibling live opts tx eq_refl)].
Defined.

(** *** Errors and the round trip *)

Lemma errors_recorded_and_returned_witness :
  let op := OpRollback {| wt_tracer := tracer0; wt_ctx := ctxWithSpan live 0;
                          wt_parent := mockTx |} in
  let err := ErrDriver "rollback failed" in
  In (NRollback, Some err) (native_calls (emitted (run op) mockWorld)) /\
  fst (run op mockWorld) = Some err /\
  In (0, "sql-tx-rollback") (started (emitted (run op) mockWorld)) /\
  (exists ctx, In (RecordError 0 ctx err) (emitted (run op) mockWorld)).
Proof.
  intros op err.
  pose proof (errors_recorded_and_returned op mockWorld) as [Hnat Hspan].
  assert (Hcall : In (NRollback, Some err)
                     (native_calls (emitted (run op) mockWorld)))
    by (left; reflexivity).
  assert (Hopen : In (0, "sql-tx-rollback")
                     (started (emitted (run op) mockWorld)))
    by (left; reflexivity).
  split; [exact Hcall|].
  split; [exact (Hnat NRollback err Hcall)|].
  split; [exact Hopen|].
  exact (proj1 (Hspan err (Hnat NRollback err Hcall)) 0 "sql-tx-rollback"
           Hopen).
Defined.

(** C4, where the code departs from it.  The claim asks that open,
    prepare, exec, close through the wrapped driver reach the native driver
    with the same arguments as the same sequence made on it directly.
    [wrappedStmt.ExecContext] puts the context derived from the one the
    statement was prepared with in place of the context of the call.  Here
    the statement is prepared under a live context and executed under a
    cancelled one, on a driver that honours cancellation: made directly, the
    exec is refused and the store stays empty; through the facades the
    native statement is handed a live context, executes, and the row is
    written.  No context in the wrapped run is nil. *)
Theorem ctx_aware_round_trip_diverges :
  let wd := {| wd_tracer := tracer0; wd_parent := mockDriverCtx |} in
  let args := [positional (VInt 7)] in
  let direct :=
    ctx_trip_native mockDriverCtx "dsn" "INSERT" live cancelled args
      mockWorld in
  let traced :=
    ctx_trip_wrapped wd "dsn" "INSERT" live cancelled args mockWorld in
  (fst direct = Some (ObsDone (Err ErrCanceled) None None) /\
   db (snd direct) = [] /\
   native_calls (log (snd direct))
   = [(NOpen "dsn", None);
      (NPrepareContext live "INSERT", None);
      (NStmtExecContext cancelled args, Some ErrCanceled);
      (NStmtClose, None); (NConnClose, None)]) /\
  (fst traced = ObsDone (Ok ((1%Z, None), (1%Z, None))) None None /\
   db (snd traced) = [("INSERT", [VInt 7])] /\
   native_calls (log (snd traced))
   = [(NOpen "dsn", None);
      (NPrepareContext (ctxWithSpan live 0) "INSERT", None);
      (NStmtExecContext (ctxWithSpan (ctxWithSpan live 0) 1) args, None);
      (NLastInsertId, None); (NRowsAffected, None);
      (NStmtClose, None); (NConnClose, None)] /\
   nil_starts (log (snd traced)) = []).
Proof. repeat split. Qed.

(** ** Instances of the further properties *)

Lemma spans_named_and_tagged_witness :
  let op := OpRollback {| wt_tracer := tracer0; wt_ctx := ctxWithSpan live 0;
                          wt_parent := mockTx |} in
  In (0, "sql-tx-rollback") (started (emitted (run op) mockWorld)) /\
  In "sql-tx-rollback" span_names /\
  In (SetAttr 0 "component" (AttrString "database/sql"))
     (emitted (run op) mockWorld).
Proof.
  intros op.
  assert (Hin : In (0, "sql-tx-rollback")
                   (started (emitted (run op) mockWorld)))
    by (left; reflexivity).
  split; [exact Hin|].
  exact (spans_named_and_tagged op mockWorld 0 "sql-tx-rollback" Hin).
Defined.

Lemma untraced_methods_leave_no_trace_witness :
  let op := OpPrepare {| wc_tracer := tracer0; wc_parent := mockConn |}
              "INSERT" in
  span_name op = None /\
  trace_events (emitted (run op) mockWorld) = [].
Proof.
  intros op. split; [reflexivity|].
  exact (untraced_methods_leave_no_trace op mockWorld eq_refl).
Defined.

Lemma success_records_no_error_witness :
  let op := OpCommit {| wt_tracer := tracer0; wt_ctx := ctxWithSpan live 0;
                        wt_parent := mockTx |} in
  fst (run op mockWorld) = None /\
  ~ In (RecordError 0 (ctxWithSpan (ctxWithSpan live 0) 0) ErrSkip)
       (emitted (run op) mockWorld).
Proof.
  intros op. split; [reflexivity|].
  exact (success_records_no_error op mockWorld 0
           (ctxWithSpan (ctxWithSpan live 0) 0) ErrSkip eq_refl).
Defined.

Lemma namedValueToValue_outcomes_witness :
  let args := [positional (VInt 1); named "id" (VInt 2)] in
  namedValueToValue args = Err errNamedParameters /\
  errNamedParameters = errNamedParameters /\
  Exists (fun p => nvName p <> "") args.
Proof.
  intros args. split; [reflexivity|].
  exact (proj2 (namedValueToValue_outcomes args) errNamedParameters
           eq_refl).
Defined.

Lemma conn_context_aware_calls_delegate_witness :
  let c := {| wc_tracer := tracer0; wc_parent := mockConnCtx |} in
  let args := [named "id" (VInt 2)] in
  ExecerContext (wc_parent c)
  = Some (fun ctx query => mock_exec_ctx query ctx) /\
  native_calls (emitted (wrappedConn_ExecContext c cancelled "INSERT" args)
                  mockWorld)
  = [(NConnExecContext (ctxWithSpan cancelled 0) "INSERT" args,
      Some ErrCanceled)].
Proof.
  intros c args. split; [reflexivity|].
  exact (proj1 (proj1 (conn_context_aware_calls_delegate c cancelled
                         "INSERT" args mockWorld)
                  (fun ctx query => mock_exec_ctx query ctx) eq_refl)).
Defined.

Lemma stmt_context_aware_calls_delegate_witness :
  let s := {| ws_tracer := tracer0; ws_ctx := ctxWithSpan live 0;
              ws_query := "INSERT"; ws_parent := mockStmtCtx "INSERT" |} in
  let args := [positional (VInt 7)] in
  StmtExecContext (ws_parent s) = Some (mock_exec_ctx "INSERT") /\
  native_calls (emitted (wrappedStmt_ExecContext s cancelled args)
                  worldAfterPrepareContext)
  = [(NStmtExecContext (ctxWithSpan (ctxWithSpan live 0) 1) args, None)].
Proof.
  intros s args. split; [reflexivity|].
  exact (proj1 (proj1 (stmt_context_aware_calls_delegate s cancelled args
                         worldAfterPrepareContext)
                  (mock_exec_ctx "INSERT") eq_refl)).
Defined.

Lemma fallback_is_the_legacy_call_witness :
  let c := {| wc_tracer := tracer0; wc_parent := mockConnLegacy |} in
  let args :=
    [positional (VInt 1); positional (VString "a"); positional (VBool true)] in
  let dargs := [VInt 1; VString "a"; VBool true] in
  Forall unnamed args /\
  (fst (wrappedConn_ExecContext c live "INSERT" args mockWorld)
   = fst (wrappedConn_Exec c "INSERT" dargs mockWorld) /\
   db (snd (wrappedConn_ExecContext c live "INSERT" args mockWorld))
   = db (snd (wrappedConn_Exec c "INSERT" dargs mockWorld)) /\
   native_calls (emitted (wrappedConn_ExecContext c live "INSERT" args)
                   mockWorld)
   = native_calls (emitted (wrappedConn_Exec c "INSERT" dargs) mockWorld)) /\
  (fst (wrappedStmt_ExecContext stmtFromPrepare live args mockWorld)
   = fst (wrappedStmt_Exec stmtFromPrepare dargs mockWorld) /\
   db (snd (wrappedStmt_ExecContext stmtFromPrepare live args mockWorld))
   = db (snd (wrappedStmt_Exec stmtFromPrepare dargs mockWorld)) /\
   native_calls (emitted (wrappedStmt_ExecContext stmtFromPrepare live args)
                   mockWorld)
   = native_calls (emitted (wrappedStmt_Exec stmtFromPrepare dargs)
                     mockWorld)).
Proof.
  intros c args dargs.
  assert (Hall : Forall unnamed args) by (repeat constructor).
  pose proof (fallback_is_the_legacy_call c stmtFromPrepare live "INSERT"
                args mockWorld Hall) as [Hexec [_ [Hstmt _]]].
  split; [exact Hall|].
  split; [exact (Hexec eq_refl eq_refl) | exact (Hstmt eq_refl eq_refl)].
Defined.

Lemma BeginTx_PrepareContext_dispatch_witness :
  let c := {| wc_tracer := tracer0; wc_parent := mockConn |} in
  let serializable := {| Isolation := 6; ReadOnly := true |} in
  ConnBeginTx (wc_parent c) = None /\
  native_calls (emitted (wrappedConn_BeginTx c cancelled serializable)
                  mockWorld)
  = [(NBegin, None)] /\
  res_err (fst (wrappedConn_BeginTx c cancelled serializable mockWorld))
  = None.
Proof.
  intros c serializable. split; [reflexivity|].
  exact (proj1 (proj2 (BeginTx_PrepareContext_dispatch c cancelled
                         serializable "INSERT" mockWorld))
           eq_refl).
Defined.

Lemma returned_facades_share_the_tracer_witness :
  let d := {| wd_tracer := tracer0; wd_parent := mockDriver |} in
  let c := {| wc_tracer := tracer0; wc_parent := mockConn |} in
  fst (wrappedDriver_Open d "dsn" mockWorld) = Ok c /\
  wc_tracer c = wd_tracer d.
Proof.
  intros d c. split; [reflexivity|].
  exact (proj1 (returned_facades_share_the_tracer d c stmtFromPrepare "dsn"
                  "INSERT" live {| Isolation := 0; ReadOnly := false |}
                  [] [] mockWorld)
           c eq_refl).
Defined.

Lemma context_of_returned_results_witness :
  let c := {| wc_tracer := tracer0; wc_parent := mockConnLegacy |} in
  let x := {| wr_tracer := tracer0; wr_ctx := ctxNil;
              wr_parent := mockResult |} in
  fst (wrappedConn_ExecContext c live "INSERT" [positional (VInt 1)]
         mockWorld) = Ok x /\
  wr_ctx x = ctxNil.
Proof.
  intros c x. split; [reflexivity|].
  exact (proj1 (proj2 (proj2 (context_of_returned_results c stmtFromPrepare
                                "INSERT" live [] [positional (VInt 1)]
                                mockWorld)))
           x eq_refl).
Defined.

Lemma context_of_prepared_statements_witness :
  let c := {| wc_tracer := tracer0; wc_parent := mockConn |} in
  fst (wrappedConn_PrepareContext c live "INSERT" mockWorld)
  = Ok stmtFromPrepare /\
  ws_ctx stmtFromPrepare = ctxNil.
Proof.
  intros c. split; [reflexivity|].
  exact (proj2 (context_of_prepared_statements c "INSERT" live mockWorld)
           stmtFromPrepare eq_refl).
Defined.

Lemma WrapDriver_registers_once_witness :
  let wd := {| wd_tracer := tracer0; wd_parent := mockDriver |} in
  let drivers : gmap string (@wrappedDriver mockDB) :=
    <["traced-postgres" := wd]> ∅ in
  WrapDriver_Register "postgres" mockDriver tracer0 ∅
  = Some ("traced-postgres", drivers) /\
  "traced-postgres" = ("traced-" ++ "postgres")%string /\
  drivers !! "traced-postgres" = Some wd /\
  WrapDriver_Register "postgres" mockDriver "mysql" drivers = None.
Proof.
  intros wd drivers.
  assert (Hreg : WrapDriver_Register "postgres" mockDriver tracer0 ∅
                 = Some ("traced-postgres", drivers))
    by (unfold WrapDriver_Register, sql_Register, WrapDriver;
        rewrite lookup_empty; reflexivity).
  pose proof (WrapDriver_registers_once "postgres" mockDriver tracer0 ∅
                "traced-postgres" drivers Hreg)
    as [Hname [Hlook [Htwice _]]].
  split; [exact Hreg|]. split; [exact Hname|]. split; [exact Hlook|].
  exact (Htwice mockDriver "mysql").
Defined.

Lemma cursor_trip_refines_native_witness :
  let s := stmtFromPrepareContext in
  let w := worldAfterPrepareContext in
  ws_ctx s <> ctxNil /\
  fst (cursor_trip s [] [VNil] w)
  = QObsRows 0 ["id"] ([VInt 1], None) ([VInt 1], None) None None /\
  fst (cursor_trip s [] [VNil] w)
  = fst (cursor_trip (ws_parent s) [] [VNil] w) /\
  nil_starts (emitted (cursor_trip s [] [VNil]) w) = [].
Proof.
  intros s w.
  assert (Hctx : ws_ctx s <> ctxNil) by discriminate.
  pose proof (cursor_trip_refines_native s [] [VNil] w Hctx)
    as [Hobs [_ [_ Hnil]]].
  split; [exact Hctx|]. split; [reflexivity|].
  split; [exact Hobs | exact Hnil].
Defined.

Lemma own_span_brackets_the_operation_witness :
  let op := OpStmtExecContext stmtFromPrepareContext live
              [positional (VInt 7)] in
  span_name op = Some "sql-stmt-exec" /\
  (exists tracer parent,
     head (emitted (run op) worldAfterPrepareContext)
     = Some (Start tracer parent "sql-stmt-exec" 1)) /\
  last (emitted (run op) worldAfterPrepareContext) = Some (End 1).
Proof.
  intros op. split; [reflexivity|].
  exact (own_span_brackets_the_operation op worldAfterPrepareContext
           "sql-stmt-exec" eq_refl).
Defined.

Lemma stmt_fallback_checks_the_stored_context_witness :
  let s := {| ws_tracer := tracer0; ws_ctx := ctxWithSpan cancelled 0;
              ws_query := ""; ws_parent := mockStmt "INSERT" |} in
  let args := [positional (VInt 7)] in
  Forall unnamed args /\
  ctx_Err (ws_ctx s) = Some ErrCanceled /\
  StmtExecContext (ws_parent s) = None /\
  res_err (fst (wrappedStmt_ExecContext s live args mockWorld))
  = Some ErrCanceled /\
  native_calls (emitted (wrappedStmt_ExecContext s live args) mockWorld)
  = [].
Proof.
  intros s args.
  assert (Hall : Forall unnamed args) by (repeat constructor).
  split; [exact Hall|]. do 2 (split; [reflexivity|]).
  exact (proj1 (stmt_fallback_checks_the_stored_context s live args
                  mockWorld ErrCanceled Hall eq_refl)
           eq_refl).
Defined.
